(** * LakeHealth dashboard: index pipeline, AOI resolution, alert evaluation

    A shallow embedding of the three dashboard scripts ([app.py], [app2.py],
    [app3.py]) and the statements their specification makes about them.

    Conventions of the embedding.
    - Reflectances, index values and thresholds are Python floats in the
      scripts; here they are exact rationals ([Qc], canonical fractions with
      Leibniz equality).  Rounding of binary floating point is not modelled.
    - A Python exception is a value of [Py.exn]; code that may raise lives in
      the monad [Py.M], which also records the Streamlit sidebar calls made so
      far.
    - The Earth Engine client library, [json.loads] and [requests] are not
      part of the repository.  Module [Json] follows the grammar of the
      standard decoder, module [ee] the documented behaviour of the client
      calls the scripts make; each definition says what it stands for. *)

From Stdlib Require Import ZArith QArith Qcanon String Ascii List Lia.
From stdpp Require Import base option list gmap strings pretty.

Local Open Scope string_scope.
Local Open Scope list_scope.
Local Open Scope Z_scope.

(** ** Python effects: exceptions and sidebar output *)

Module Py.

(** The exceptions the modelled code can meet. *)
Inductive exn : Type :=
| JSONDecodeError
| TypeError
| KeyError (key : string)
| IndexError
| AttributeError
| EEException (msg : string)
| ValueError
| ConnectionError
| HTTPError (status : Z).

Inductive result (A : Type) : Type :=
| Ok (a : A)
| Raise (e : exn).
Arguments Ok {A} a.
Arguments Raise {A} e.

(** A fragment of an f-string. *)
Inductive piece : Type :=
| Lit (s : string)
| Fixed3 (v : Qc)          (* {v:.3f} *)
| Shown (e : exn).         (* {e} *)

Definition text := list piece.

(** One call on [st.sidebar].  The pictographs of the message texts are
    left out. *)
Inductive st_call : Type :=
| markdown (t : text)
| error (t : text)
| info (t : text)
| success (t : text).

(** Sidebar calls made, then the outcome. *)
Definition M (A : Type) : Type := (list st_call * result A)%type.

Definition ret {A} (a : A) : M A := ([], Ok a).
Definition raise {A} (e : exn) : M A := ([], Raise e).
Definition emit (c : st_call) : M unit := ([c], Ok tt).

Definition bind {A B} (m : M A) (f : A → M B) : M B :=
  match m with
  | (out, Ok a) => let '(out', r) := f a in (out ++ out', r)
  | (out, Raise e) => (out, Raise e)
  end.

(** [try: m  except Exception as e: h e] *)
Definition try_except {A} (m : M A) (h : exn → M A) : M A :=
  match m with
  | (out, Raise e) => let '(out', r) := h e in (out ++ out', r)
  | ok => ok
  end.

Definition lift {A} (r : result A) : M A := ([], r).

End Py.

Import Py.

(** The scripts read as sequences of calls: stdpp's [x ← m; k] and [m ;; k]
    are used for both [M] and [result]. *)
Global Instance M_ret : MRet M := @Py.ret.
Global Instance M_bind : MBind M := λ A B f m, Py.bind m f.
Global Instance result_ret : MRet result := @Ok.
Global Instance result_bind : MBind result := λ A B f r,
  match r with Ok a => f a | Raise e => Raise e end.

(** ** [json.loads]

    The decoder of the Python standard library, as far as the dashboard
    depends on it: which texts it accepts and which value it returns.  Text is
    a byte string (UTF-8); a [\uXXXX] escape is stored by its UTF-8 bytes.
    Numbers are kept exact.  Interpreter limits (recursion depth, integer
    digit limit) are not modelled. *)

Module Json.

Inductive pynum : Type :=
| Finite (q : Qc)
| NaN
| Inf (negative : bool).

#[warnings="-register-all"]
Inductive json : Type :=
| JNull
| JBool (b : bool)
| JNum (n : pynum)
| JStr (s : string)
| JArr (items : list json)
| JObj (members : list (string * json)).

(** A Python [dict] with string keys: insertion order, one entry per key. *)
Fixpoint dict_set (k : string) (v : json) (d : list (string * json))
  : list (string * json) :=
  match d with
  | [] => [(k, v)]
  | (k', v') :: d' =>
      if String.eqb k k' then (k, v) :: d' else (k', v') :: dict_set k v d'
  end.

Fixpoint dict_get (k : string) (d : list (string * json)) : option json :=
  match d with
  | [] => None
  | (k', v) :: d' => if String.eqb k k' then Some v else dict_get k d'
  end.

Definition dquote : ascii := "034"%char.
Definition backslash : ascii := "\"%char.

Definition code (c : ascii) : Z := Z.of_nat (nat_of_ascii c).
Definition chr (n : Z) : ascii := ascii_of_nat (Z.to_nat n).

Definition is_ws (c : ascii) : bool :=
  (code c =? 32) || (code c =? 9) || (code c =? 10) || (code c =? 13).

Fixpoint skip_ws (s : list ascii) : list ascii :=
  match s with
  | c :: t => if is_ws c then skip_ws t else s
  | [] => []
  end.

Definition digit_val (c : ascii) : option Z :=
  let n := code c in
  if (48 <=? n) && (n <=? 57) then Some (n - 48) else None.

Definition hex_val (c : ascii) : option Z :=
  let n := code c in
  if (48 <=? n) && (n <=? 57) then Some (n - 48)
  else if (97 <=? n) && (n <=? 102) then Some (n - 87)
  else if (65 <=? n) && (n <=? 70) then Some (n - 55)
  else None.

Definition hex4 (a b c d : ascii) : option Z :=
  match hex_val a, hex_val b, hex_val c, hex_val d with
  | Some x, Some y, Some z, Some w => Some (4096 * x + 256 * y + 16 * z + w)
  | _, _, _, _ => None
  end.

(** UTF-8 bytes of a code point (a lone surrogate takes three bytes). *)
Definition utf8 (u : Z) : list ascii :=
  if u <? 128 then [chr u]
  else if u <? 2048 then [chr (192 + u / 64); chr (128 + u mod 64)]
  else if u <? 65536 then
    [chr (224 + u / 4096); chr (128 + (u / 64) mod 64); chr (128 + u mod 64)]
  else
    [chr (240 + u / 262144); chr (128 + (u / 4096) mod 64);
     chr (128 + (u / 64) mod 64); chr (128 + u mod 64)].

Definition simple_escape (e : ascii) : option ascii :=
  if (e =? dquote)%char then Some dquote
  else if (e =? backslash)%char then Some backslash
  else if (e =? "/")%char then Some "/"%char
  else if (e =? "b")%char then Some (chr 8)
  else if (e =? "f")%char then Some (chr 12)
  else if (e =? "n")%char then Some (chr 10)
  else if (e =? "r")%char then Some (chr 13)
  else if (e =? "t")%char then Some (chr 9)
  else None.

(** [scanstring], strict mode, entered after the opening quote; [acc] holds
    the characters read so far, last first. *)
Fixpoint scanstring (s acc : list ascii) : option (string * list ascii) :=
  match s with
  | [] => None
  | c :: t =>
      if (c =? dquote)%char then Some (string_of_list_ascii (rev acc), t)
      else if (c =? backslash)%char then
        match t with
        | [] => None
        | e :: t1 =>
            if (e =? "u")%char then
              match t1 with
              | h1 :: h2 :: h3 :: h4 :: t2 =>
                  match hex4 h1 h2 h3 h4 with
                  | None => None
                  | Some u =>
                      if (55296 <=? u) && (u <=? 56319) then
                        match t2 with
                        | b :: t3 =>
                            match t3 with
                            | v :: t4 =>
                                if (b =? backslash)%char && (v =? "u")%char then
                                  match t4 with
                                  | k1 :: k2 :: k3 :: k4 :: t5 =>
                                      match hex4 k1 k2 k3 k4 with
                                      | None => None
                                      | Some u2 =>
                                          if (56320 <=? u2) && (u2 <=? 57343) then
                                            scanstring t5
                                              (rev (utf8 (65536 + (u - 55296) * 1024
                                                          + (u2 - 56320))) ++ acc)
                                          else scanstring t2 (rev (utf8 u) ++ acc)
                                      end
                                  | _ => None
                                  end
                                else scanstring t2 (rev (utf8 u) ++ acc)
                            | [] => scanstring t2 (rev (utf8 u) ++ acc)
                            end
                        | [] => scanstring t2 (rev (utf8 u) ++ acc)
                        end
                      else scanstring t2 (rev (utf8 u) ++ acc)
                  end
              | _ => None
              end
            else
              match simple_escape e with
              | Some x => scanstring t1 (x :: acc)
              | None => None
              end
        end
      else if code c <? 32 then None
      else scanstring t (c :: acc)
  end.

Fixpoint take_digits (s : list ascii) : list Z * list ascii :=
  match s with
  | c :: t =>
      match digit_val c with
      | Some d => let '(ds, r) := take_digits t in (d :: ds, r)
      | None => ([], s)
      end
  | [] => ([], [])
  end.

Definition digits_val (ds : list Z) : Z := fold_left (λ a d, 10 * a + d) ds 0.

(** The value of [-?ip.fp e ex]. *)
Definition decimal (neg : bool) (ip fp : list Z) (ex : Z) : Qc :=
  let m := digits_val (ip ++ fp) in
  let m := if neg then - m else m in
  let e := ex - Z.of_nat (length fp) in
  if 0 <=? e then Q2Qc (inject_Z (m * 10 ^ e))
  else Q2Qc (m # Z.to_pos (10 ^ (- e))).

(** The decoder's number pattern: an optional minus, then 0 or a digit
    string without leading zero; then, each only when complete, a fraction
    (point and digits) and an exponent (e or E, optional sign, digits). *)
Definition match_number (s : list ascii) : option (Qc * list ascii) :=
  let '(neg, s1) :=
    match s with
    | c :: t => if (c =? "-")%char then (true, t) else (false, s)
    | [] => (false, s)
    end in
  let int_part :=
    match s1 with
    | c :: t =>
        if (c =? "0")%char then Some ([0], t)
        else match digit_val c with
             | Some d => let '(ds, r) := take_digits t in Some (d :: ds, r)
             | None => None
             end
    | [] => None
    end in
  match int_part with
  | None => None
  | Some (ip, r) =>
      let '(fp, r1) :=
        match r with
        | c :: t =>
            if (c =? ".")%char then
              match take_digits t with
              | ([], _) => ([], r)
              | (ds, r') => (ds, r')
              end
            else ([], r)
        | [] => ([], r)
        end in
      let '(ex, r2) :=
        match r1 with
        | c :: t =>
            if (c =? "e")%char || (c =? "E")%char then
              let '(sgn, t') :=
                match t with
                | c' :: t'' =>
                    if (c' =? "-")%char then (-1, t'')
                    else if (c' =? "+")%char then (1, t'')
                    else (1, t)
                | [] => (1, t)
                end in
              match take_digits t' with
              | ([], _) => (0, r1)
              | (ds, r') => (sgn * digits_val ds, r')
              end
            else (0, r1)
        | [] => (0, r1)
        end in
      Some (decimal neg ip fp ex, r2)
  end.

(** [strip_prefix p s]: the rest of [s] after the literal [p]. *)
Fixpoint strip_prefix (p : list ascii) (s : list ascii) : option (list ascii) :=
  match p, s with
  | [], _ => Some s
  | a :: p', b :: s' => if (a =? b)%char then strip_prefix p' s' else None
  | _ :: _, [] => None
  end.

Definition literal (p : string) (v : json) (s : list ascii)
  : option (json * list ascii) :=
  match strip_prefix (list_ascii_of_string p) s with
  | Some r => Some (v, r)
  | None => None
  end.

(** [scan_once] with the array and object loops.  Every call consumes a
    character before it recurs, so [fuel] above twice the length of the text
    is never used up. *)
Fixpoint scan_once (fuel : nat) (s : list ascii) : option (json * list ascii) :=
  match fuel with
  | O => None
  | S fuel' =>
      match s with
      | [] => None
      | c :: t =>
          if (c =? dquote)%char then
            match scanstring t [] with
            | Some (str, r) => Some (JStr str, r)
            | None => None
            end
          else if (c =? "{")%char then
            match skip_ws t with
            | c' :: t' =>
                if (c' =? "}")%char then Some (JObj [], t')
                else if (c' =? dquote)%char then scan_members fuel' t' []
                else None
            | [] => None
            end
          else if (c =? "[")%char then
            match skip_ws t with
            | c' :: t' =>
                if (c' =? "]")%char then Some (JArr [], t')
                else scan_items fuel' (c' :: t') []
            | [] => None
            end
          else if (c =? "n")%char then literal "null" JNull s
          else if (c =? "t")%char then literal "true" (JBool true) s
          else if (c =? "f")%char then literal "false" (JBool false) s
          else
            match match_number s with
            | Some (q, r) => Some (JNum (Finite q), r)
            | None =>
                if (c =? "N")%char then literal "NaN" (JNum NaN) s
                else if (c =? "I")%char then literal "Infinity" (JNum (Inf false)) s
                else if (c =? "-")%char then literal "-Infinity" (JNum (Inf true)) s
                else None
            end
      end
  end
(** array loop, at the first character of an item; [acc] last first *)
with scan_items (fuel : nat) (s : list ascii) (acc : list json)
  : option (json * list ascii) :=
  match fuel with
  | O => None
  | S fuel' =>
      match scan_once fuel' s with
      | None => None
      | Some (v, r) =>
          match skip_ws r with
          | c :: t =>
              if (c =? "]")%char then Some (JArr (rev (v :: acc)), t)
              else if (c =? ",")%char then scan_items fuel' (skip_ws t) (v :: acc)
              else None
          | [] => None
          end
      end
  end
(** object loop, after the opening quote of a key; [acc] is the dict so far *)
with scan_members (fuel : nat) (s : list ascii) (acc : list (string * json))
  : option (json * list ascii) :=
  match fuel with
  | O => None
  | S fuel' =>
      match scanstring s [] with
      | None => None
      | Some (key, r) =>
          match skip_ws r with
          | c :: t =>
              if (c =? ":")%char then
                match scan_once fuel' (skip_ws t) with
                | None => None
                | Some (v, r') =>
                    let acc' := dict_set key v acc in
                    match skip_ws r' with
                    | c' :: t' =>
                        if (c' =? "}")%char then Some (JObj acc', t')
                        else if (c' =? ",")%char then
                          match skip_ws t' with
                          | q :: t'' =>
                              if (q =? dquote)%char then scan_members fuel' t'' acc'
                              else None
                          | [] => None
                          end
                        else None
                    | [] => None
                    end
                end
              else None
          | [] => None
          end
      end
  end.

(** [decode]: leading blanks, one value, trailing blanks, end of text. *)
Definition decode (fuel : nat) (s : list ascii) : result json :=
  match scan_once fuel (skip_ws s) with
  | Some (v, r) =>
      match skip_ws r with
      | [] => Ok v
      | _ :: _ => Raise JSONDecodeError
      end
  | None => Raise JSONDecodeError
  end.

(** [json.loads(text)] *)
Definition loads (text : string) : result json :=
  let s := list_ascii_of_string text in
  decode (2 * length s + 2) s.

(** Text of a JSON document written with apostrophes for its quotes. *)
Definition quoted (s : string) : string :=
  string_of_list_ascii
    (map (λ c, if (c =? "'")%char then dquote else c) (list_ascii_of_string s)).

End Json.

Import Json.

(** ** Python operators on decoded values *)

Module PyOps.

Definition is_str (x : json) : bool :=
  match x with JStr _ => true | _ => false end.

(** [isinstance(x, collections.abc.Iterable)] *)
Definition is_iterable (x : json) : bool :=
  match x with JArr _ | JStr _ | JObj _ => true | _ => false end.

(** [isinstance(x, numbers.Number)]; [bool] is a subclass of [int]. *)
Definition is_number (x : json) : bool :=
  match x with JNum _ | JBool _ => true | _ => false end.

(** Truth value of [x]. *)
Definition truthy (x : json) : bool :=
  match x with
  | JNull => false
  | JBool b => b
  | JNum (Finite q) => negb (Qc_eq_bool q (Q2Qc 0))
  | JNum _ => true
  | JStr s => negb (String.eqb s "")
  | JArr l => match l with [] => false | _ => true end
  | JObj d => match d with [] => false | _ => true end
  end.

Definition is_substring (needle s : string) : bool :=
  match String.index 0 needle s with Some _ => true | None => false end.

(** [key in x] for a string [key] *)
Definition contains (key : string) (x : json) : result bool :=
  match x with
  | JObj d => Ok (match dict_get key d with Some _ => true | None => false end)
  | JArr l =>
      Ok (existsb (λ y, match y with JStr s => String.eqb s key | _ => false end) l)
  | JStr s => Ok (is_substring key s)
  | _ => Raise TypeError
  end.

(** [x[key]] for a string [key] *)
Definition getitem (x : json) (key : string) : result json :=
  match x with
  | JObj d => match dict_get key d with Some v => Ok v | None => Raise (KeyError key) end
  | _ => Raise TypeError
  end.

(** [x[i]] for an index [i] that is not negative *)
Definition getitem_at (x : json) (i : nat) : result json :=
  match x with
  | JArr l => match l !! i with Some v => Ok v | None => Raise IndexError end
  | JStr s =>
      match String.get i s with
      | Some c => Ok (JStr (String c EmptyString))
      | None => Raise IndexError
      end
  | JObj _ => Raise (KeyError (pretty (Z.of_nat i)))
  | _ => Raise TypeError
  end.

(** [x.get(key, dflt)] *)
Definition get (x : json) (key : string) (dflt : json) : result json :=
  match x with
  | JObj d => Ok (match dict_get key d with Some v => v | None => dflt end)
  | _ => Raise AttributeError
  end.

(** The items a [for] loop over [x] visits. *)
Definition iter (x : json) : result (list json) :=
  match x with
  | JArr l => Ok l
  | JObj d => Ok (map (λ kv, JStr (fst kv)) d)
  | JStr s => Ok (map (λ c, JStr (String c EmptyString)) (list_ascii_of_string s))
  | _ => Raise TypeError
  end.

(** [a + b] on strings *)
Definition str_add (a b : json) : result json :=
  match a, b with
  | JStr x, JStr y => Ok (JStr (x +:+ y))
  | _, _ => Raise TypeError
  end.

End PyOps.

(** ** The Earth Engine client, geometry part

    [ee.Geometry(geo_json)] builds a client-side object from a GeoJSON
    literal.  Before it does, the client checks the literal: the type must be
    a known one and the coordinate arrays must nest to the depth the type
    asks for.  It then reads the projection the literal names and prepares
    the call of the service's constructor, for which the coordinates must be
    a list and every part of a collection a geometry of its own.  Rings are
    neither counted nor closed on the client.  The client library is taken
    to be initialised, as [main] does first. *)

Module ee.

Record Geometry : Type := {
  g_type : json;
  g_coordinates : option json;
  g_geometries : option json;
  g_proj : option string
}.

(** [Geometry._isValidCoordinates(shape)]: nesting depth, or -1 *)
Fixpoint isValidCoordinates (shape : json) : result Z :=
  match shape with
  | JArr (first :: rest) =>
      if PyOps.is_iterable first && negb (PyOps.is_str first) then
        match isValidCoordinates first with
        | Raise e => Raise e
        | Ok count =>
            (fix others (l : list json) : result Z :=
               match l with
               | [] => Ok (count + 1)
               | x :: l' =>
                   match isValidCoordinates x with
                   | Raise e => Raise e
                   | Ok c => if c =? count then others l' else Ok (-1)
                   end
               end) rest
        end
      else if forallb PyOps.is_number (first :: rest) then
        (if Z.of_nat (length (first :: rest)) mod 2 =? 0 then Ok 1 else Ok (-1))
      else Ok (-1)
  | JArr [] => Ok 1
  | JStr s => if String.eqb s "" then Ok 1 else Ok (-1)
  | JObj [] => Ok 1
  | JObj (_ :: _) => Raise (KeyError "0")
  | _ => Ok (-1)
  end.

Definition type_is (t : option json) (name : string) : bool :=
  match t with Some (JStr s) => String.eqb s name | _ => false end.

(** [not coords] where [coords = geometry.get('coordinates')] *)
Definition no_coords (c : option json) : bool :=
  match c with Some v => negb (PyOps.truthy v) | None => true end.

(** The last branch of [_isValidGeometry]: type against nesting. *)
Definition type_matches (t c : option json) (nesting : Z) : bool :=
  (type_is t "Point" && (nesting =? 1))
  || (type_is t "MultiPoint" && ((nesting =? 2) || no_coords c))
  || (type_is t "LineString" && (nesting =? 2))
  || (type_is t "LinearRing" && (nesting =? 2))
  || (type_is t "MultiLineString" && ((nesting =? 3) || no_coords c))
  || (type_is t "Polygon" && (nesting =? 3))
  || (type_is t "MultiPolygon" && ((nesting =? 4) || no_coords c)).

(** [Geometry._isValidGeometry(geometry)].  The entry of key 'geometries'
    is reached by walking the members, so that the recursion on the parts of
    a GeometryCollection is structural. *)
Fixpoint isValidGeometry (geometry : json) : result bool :=
  match geometry with
  | JObj d =>
      let t := dict_get "type" d in
      if type_is t "GeometryCollection" then
        (fix find (m : list (string * json)) : result bool :=
           match m with
           | [] => Ok false
           | (k, v) :: m' =>
               if String.eqb "geometries" k then
                 match v with
                 | JArr subs =>
                     (fix every (l : list json) : result bool :=
                        match l with
                        | [] => Ok true
                        | g :: l' =>
                            match isValidGeometry g with
                            | Raise e => Raise e
                            | Ok true => every l'
                            | Ok false => Ok false
                            end
                        end) subs
                 | _ => Ok false
                 end
               else find m'
           end) d
      else
        let c := dict_get "coordinates" d in
        match isValidCoordinates (default JNull c) with
        | Raise e => Raise e
        | Ok nesting => Ok (type_matches t c nesting)
        end
  | _ => Ok false
  end.

(** The projection named by the literal's 'crs' member, when it has one. *)
Definition crs_name (d : list (string * json)) : result (option string) :=
  match dict_get "crs" d with
  | None => Ok None
  | Some (JObj c) =>
      match dict_get "type" c, dict_get "properties" c with
      | Some (JStr "name"), Some (JObj p) =>
          match dict_get "name" p with
          | Some (JStr n) => Ok (Some n)
          | _ => Raise (EEException "Invalid CRS declaration in GeoJSON")
          end
      | _, _ => Raise (EEException "Invalid CRS declaration in GeoJSON")
      end
  | Some _ => Raise (EEException "Invalid CRS declaration in GeoJSON")
  end.

(** [ee.List(arg)], to which the constructor promotes the coordinates it is
    given: a missing or null entry is passed on as it is, an array is taken,
    anything else is refused.  (The text of the exception goes on to name the
    value; that part is left out, as for the projection above.) *)
Definition promote_list (c : option json) : result unit :=
  match c with
  | None | Some JNull | Some (JArr _) => Ok tt
  | Some _ => Raise (EEException "Invalid argument specified for ee.List()")
  end.

(** What [ee.Geometry(geo_json)] does with a literal that has passed the
    check: it reads the projection, then builds the call of the service's
    constructor.  For a GeometryCollection that means an [ee.Geometry] of
    every part, in order; for the other types the coordinates are promoted
    to a list.  The result is the projection.  As in [isValidGeometry], the
    parts are reached by walking the members. *)
Fixpoint construct (geo_json : json) : result (option string) :=
  match geo_json with
  | JObj d =>
      match crs_name d with
      | Raise e => Raise e
      | Ok proj =>
          if type_is (dict_get "type" d) "GeometryCollection" then
            (fix find (m : list (string * json)) : result (option string) :=
               match m with
               | [] => Raise TypeError
               | (k, v) :: m' =>
                   if String.eqb "geometries" k then
                     match v with
                     | JArr parts =>
                         (fix every (l : list json) : result (option string) :=
                            match l with
                            | [] => Ok proj
                            | g :: l' =>
                                match isValidGeometry g with
                                | Raise e => Raise e
                                | Ok false =>
                                    Raise (EEException "Invalid GeoJSON geometry.")
                                | Ok true =>
                                    match construct g with
                                    | Raise e => Raise e
                                    | Ok _ => every l'
                                    end
                                end
                            end) parts
                     | _ => Raise TypeError
                     end
                   else find m'
               end) d
          else
            match promote_list (dict_get "coordinates" d) with
            | Raise e => Raise e
            | Ok _ => Ok proj
            end
      end
  | _ => Raise (EEException "Invalid GeoJSON geometry.")
  end.

(** [ee.Geometry(geo_json)] on a literal.  The geodesic and even-odd flags
    of the object are left out. *)
Definition Geometry_of (geo_json : json) : result Geometry :=
  valid ← isValidGeometry geo_json;
  if valid : bool then
    match geo_json with
    | JObj d =>
        proj ← construct geo_json;
        Ok {| g_type := default JNull (dict_get "type" d);
              g_coordinates := dict_get "coordinates" d;
              g_geometries := dict_get "geometries" d;
              g_proj := proj |}
    | _ => Raise (EEException "Invalid GeoJSON geometry.")
    end
  else Raise (EEException "Invalid GeoJSON geometry.").

Definition point (x y : Q) : json :=
  JArr [JNum (Finite (Q2Qc x)); JNum (Finite (Q2Qc y))].

(** [ee.Geometry.Polygon([coords])] for one ring of coordinate pairs *)
Definition Polygon (rings : list (list (Q * Q))) : Geometry :=
  {| g_type := JStr "Polygon";
     g_coordinates :=
       Some (JArr (map (λ ring, JArr (map (λ xy, point (fst xy) (snd xy)) ring)) rings));
     g_geometries := None;
     g_proj := None |}.

(** *** Images

    An image is a list of named bands on a common pixel grid; band names
    are distinct.  The client only builds a description of the computation,
    which the service evaluates later: [result] is the outcome of that
    evaluation.  Masked (no-data) pixels are not modelled. *)

Definition Pixel : Type := (Z * Z)%type.
Definition Band : Type := Pixel → Qc.
Definition Image : Type := list (string * Band).

Definition bandNames (img : Image) : list string := map fst img.

(** [img.select(name)]: the one-band image of that name *)
Fixpoint select (name : string) (img : Image) : result (string * Band) :=
  match img with
  | [] => Raise (EEException "Image.select: pattern did not match any bands")
  | (n, b) :: img' => if String.eqb name n then Ok (n, b) else select name img'
  end.

(** [img.select(names)]: the bands of these names, in this order *)
Fixpoint select_all (names : list string) (img : Image) : result Image :=
  match names with
  | [] => Ok []
  | n :: names' =>
      b ← select n img;
      bs ← select_all names' img;
      Ok (b :: bs)
  end.

(** Arithmetic of one-band images, pixel by pixel; the result keeps the
    name of the first operand.  Division by zero gives 0 on the service, as
    [Qcdiv] does. *)
Definition add (a b : string * Band) : string * Band :=
  (fst a, λ p, (snd a p + snd b p)%Qc).
Definition subtract (a b : string * Band) : string * Band :=
  (fst a, λ p, (snd a p - snd b p)%Qc).
Definition divide (a b : string * Band) : string * Band :=
  (fst a, λ p, (snd a p / snd b p)%Qc).
Definition multiply_by (a : string * Band) (c : Z) : string * Band :=
  (fst a, λ p, (snd a p * Q2Qc (inject_Z c))%Qc).
Definition divide_by (a : string * Band) (c : Z) : string * Band :=
  (fst a, λ p, (snd a p / Q2Qc (inject_Z c))%Qc).
Definition rename (a : string * Band) (name : string) : string * Band :=
  (name, snd a).

(** [image.divide(c)] for a number [c]: every band is divided. *)
Definition divide_image (img : Image) (c : Z) : Image :=
  map (λ b, divide_by b c) img.

(** *** Expressions

    [image.expression(text, map)] evaluates an arithmetic text in which the
    names of [map] stand for one-band images.  The text is kept here as the
    syntax tree it is parsed into.  A literal written without a decimal point
    is an integer, and an operator applied to two integers gives an integer:
    in particular the quotient of two integers is an integer (10 / 20 is 0,
    in the words of the guide; multiplying an operand by 1.0 is the way
    around it).  The values of the images are numbers as everywhere in this
    model, so an operator with an image among its operands works on
    numbers; the scripts never divide by an image inside an expression. *)
Inductive Expr : Type :=
| EVar (name : string)
| EInt (n : Z)
| ESub (a b : Expr)
| EMul (a b : Expr)
| EDiv (a b : Expr).

Inductive Value : Type :=
| Whole (n : Z)        (* the value of an integer constant *)
| Number (q : Qc).     (* the value of an image at a pixel *)

Definition as_number (v : Value) : Qc :=
  match v with Whole n => Q2Qc (inject_Z n) | Number q => q end.

Definition arith (on_whole : Z → Z → Z) (on_number : Qc → Qc → Qc)
    (a b : Value) : Value :=
  match a, b with
  | Whole m, Whole n => Whole (on_whole m n)
  | _, _ => Number (on_number (as_number a) (as_number b))
  end.

Fixpoint variables (e : Expr) : list string :=
  match e with
  | EVar x => [x]
  | EInt _ => []
  | ESub a b | EMul a b | EDiv a b => variables a ++ variables b
  end.

Fixpoint lookup_var (x : string) (m : list (string * (string * Band)))
  : option (string * Band) :=
  match m with
  | [] => None
  | (y, b) :: m' => if String.eqb x y then Some b else lookup_var x m'
  end.

(** The value of [e] at pixel [p]; a name that [m] does not bind counts as
    0 here and is refused by [expression] below. *)
Fixpoint value (m : list (string * (string * Band))) (e : Expr) (p : Pixel) : Value :=
  match e with
  | EVar x => match lookup_var x m with Some b => Number (snd b p) | None => Whole 0 end
  | EInt n => Whole n
  | ESub a b => arith Z.sub Qcminus (value m a p) (value m b p)
  | EMul a b => arith Z.mul Qcmult (value m a p) (value m b p)
  | EDiv a b => arith Z.div Qcdiv (value m a p) (value m b p)
  end.

(** [image.expression(e, m)]: a one-band image.  The name the service gives
    to the band is not modelled (the band is taken to keep the name of the
    first image named in the text): the scripts rename the band at once. *)
Definition expression (e : Expr) (m : list (string * (string * Band)))
  : result (string * Band) :=
  if forallb (λ x, match lookup_var x m with Some _ => true | None => false end)
       (variables e)
  then Ok (match variables e with
           | x :: _ => match lookup_var x m with Some b => fst b | None => "constant" end
           | [] => "constant"
           end,
           λ p, as_number (value m e p))
  else Raise (EEException "Image.expression: unrecognized variable").

(** The name a band gets when added without [overwrite]: its own, or with
    the first free numerical suffix (foo_1, foo_2, ...) when taken. *)
Definition fresh_name (names : list string) (base : string) : string :=
  if bool_decide (base ∈ names) then
    default base
      (head (filter (λ c, c ∉ names)
               (map (λ k, base +:+ "_" +:+ pretty k) (seq 1 (S (length names))))))
  else base.

Definition addBand (dst : Image) (b : string * Band) : Image :=
  dst ++ [(fresh_name (bandNames dst) (fst b), snd b)].

(** [dst.addBands(src)], [overwrite] left at its default [False] *)
Definition addBands (dst src : Image) : Image := fold_left addBand src dst.

(** [ee.Image([b1, b2, ...])]: the bands combined into one image, which is
    what the client makes of a list passed where an image is expected. *)
Definition combine (bands : list (string * Band)) : Image :=
  match bands with
  | [] => []
  | b :: bs => addBands [b] bs
  end.

(** *** Dates, filters, collections *)

(** An instant: a calendar day (UTC) and the milliseconds into it. *)
Record Date : Type := { year : Z; month : Z; day : Z; millis : Z }.

(** [ee.Date.fromYMD(y, m, d)]: midnight at the start of that day *)
Definition Date_fromYMD (y m d : Z) : Date :=
  {| year := y; month := m; day := d; millis := 0 |}.

Definition date_ltb (a b : Date) : bool :=
  (year a <? year b)
  || ((year a =? year b)
      && ((month a <? month b)
          || ((month a =? month b)
              && ((day a <? day b)
                  || ((day a =? day b) && (millis a <? millis b)))))).

Definition date_leb (a b : Date) : bool := negb (date_ltb b a).

(** What a filter can see of an image of the catalogue. *)
Record ImageInfo : Type := {
  time_start : Date;
  properties : gmap string Qc;
  intersects : Geometry → bool
}.

(** [filterDate] takes dates or texts such as '2020-01-01'. *)
Inductive DateArg : Type :=
| AsDate (d : Date)
| AsText (s : string).

Fixpoint split_on (sep : ascii) (s : list ascii) (cur : list ascii)
  : list (list ascii) :=
  match s with
  | [] => [rev cur]
  | c :: t =>
      if (c =? sep)%char then rev cur :: split_on sep t []
      else split_on sep t (c :: cur)
  end.

Definition number_of (s : list ascii) : option Z :=
  match s, Json.take_digits s with
  | _ :: _, (ds, []) => Some (Json.digits_val ds)
  | _, _ => None
  end.

(** A text of the form year-month-day, read as midnight of that day. *)
Definition parse_ymd (s : string) : option Date :=
  match split_on "-" (list_ascii_of_string s) [] with
  | [y; m; d] =>
      match number_of y, number_of m, number_of d with
      | Some y', Some m', Some d' => Some (Date_fromYMD y' m' d')
      | _, _, _ => None
      end
  | _ => None
  end.

Definition date_of (a : DateArg) : option Date :=
  match a with
  | AsDate d => Some d
  | AsText s => parse_ymd s
  end.

Inductive Filter : Type :=
| Bounds (g : Geometry)              (* .filterBounds(g) *)
| DateRange (start stop : DateArg)   (* .filterDate(start, stop) *)
| Lt (property : string) (v : Qc).   (* .filter(ee.Filter.lt(property, v)) *)

(** Whether an image passes a filter.  [filterDate] keeps the images whose
    start time lies in the range from [start], included, to [stop],
    excluded. *)
Definition passes (f : Filter) (im : ImageInfo) : bool :=
  match f with
  | Bounds g => intersects im g
  | DateRange start stop =>
      match date_of start, date_of stop with
      | Some a, Some b => date_leb a (time_start im) && date_ltb (time_start im) b
      | _, _ => false
      end
  | Lt property v =>
      match properties im !! property with
      | Some x => bool_decide (x < v)%Qc
      | None => false
      end
  end.

Record ImageCollection : Type := {
  collection_id : string;
  filters : list Filter
}.

Definition admits (c : ImageCollection) (im : ImageInfo) : bool :=
  forallb (λ f, passes f im) (filters c).

(** The mean composite of the index bands of a collection: a description
    only, evaluated by the service. *)
Inductive Composite : Type :=
| mean_of (per_image : Image → result Image) (c : ImageCollection)
          (bands : list string).
    (* c.map(per_image).select(bands).mean() *)

(** The service's answer to
    [img.select(band).reduceRegion(mean, aoi, 10, 1e9).get(band).getInfo()]:
    a number; [None] when the region holds no valid pixel; or the exception
    [getInfo] raises when the request cannot be computed or does not get
    through ([EEException] from the service, for instance for a composite of
    a collection without images, which has no band to select). *)
Definition Service : Type := Composite → string → Geometry → result (option Qc).

End ee.

(** ** [requests], as far as [app3.py] uses it *)

Module requests.

(** A response, as far as [app3.py] looks at it: the status, and the text
    that [Response.json()] hands to the decoder.  That text is the content
    read in the encoding the response declares; when it declares none, the
    content is read in the UTF encoding guessed from its first bytes, and a
    byte order mark at its start is then consumed by the reading and is not
    part of the text. *)
Record Response : Type := { status_code : Z; json_text : string }.

(** The network: what [requests.get(url, params={'appid': appid})] gives. *)
Definition Transport : Type := string → string → result Response.

Definition raise_for_status (r : Response) : result unit :=
  if (400 <=? status_code r) && (status_code r <? 600)
  then Raise (HTTPError (status_code r)) else Ok tt.

(** [resp.json()] *)
Definition json (r : Response) : result Json.json := Json.loads (json_text r).

End requests.

(** ** [app2.py] *)

Module App2.

Definition default_coords : list (Q * Q) :=
  [ (77.6392446351248, 12.921051012051585);
    (77.63899787189543, 12.920078493132383);
    (77.63889435291664, 12.919004787930328);
    (77.63891849279777, 12.918905443959652);
    (77.63897481918708, 12.918868843539448);
    (77.64090064525978, 12.918105462124162);
    (77.64099720478431, 12.918168205890122);
    (77.64158729076759, 12.918732899074577);
    (77.6439254160206, 12.921726115590571);
    (77.64401392891808, 12.921745722734912);
    (77.64406891420289, 12.92177317273437);
    (77.64409573629304, 12.921830687009194);
    (77.64408836311765, 12.921905261527495);
    (77.64500031418271, 12.92281503075012);
    (77.64506468719907, 12.92293528735337);
    (77.64503786510892, 12.923029401176393);
    (77.64451751656003, 12.923834595767756);
    (77.64441559261746, 12.923892109567786);
    (77.64130959457822, 12.923060772442854);
    (77.64042983002133, 12.923322199510041);
    (77.64032254166074, 12.923311742432603);
    (77.6392446351248, 12.921051012051585) ]%Q.

Definition get_default_geometry : ee.Geometry := ee.Polygon [default_coords].

(** The [if]/[elif]/[else] that finds the geometry in the decoded text. *)
Definition locate_geometry (geojson : json) : result json :=
  has_features ← PyOps.contains "features" geojson;
  if has_features : bool then
    features ← PyOps.getitem geojson "features";
    first ← PyOps.getitem_at features 0;
    PyOps.getitem first "geometry"
  else
    has_geometry ← PyOps.contains "geometry" geojson;
    if has_geometry : bool then PyOps.getitem geojson "geometry"
    else Ok geojson.

(** The body of the [try] block: decode, find the geometry, build it. *)
Definition parse_geojson (geojson_str : string) : result ee.Geometry :=
  geojson ← Json.loads geojson_str;
  geom ← locate_geometry geojson;
  ee.Geometry_of geom.

(** [choice] is what the radio button returns, [geojson_str] what the text
    area holds. *)
Definition get_custom_geometry (choice geojson_str : string) : M ee.Geometry :=
  Py.emit (markdown [Lit "## AOI Selection"]);;
  if String.eqb choice "Custom GeoJSON" then
    if negb (String.eqb geojson_str "") then
      Py.try_except
        (Py.lift (parse_geojson geojson_str))
        (λ e, Py.emit (error [Lit "Invalid GeoJSON: "; Shown e]);;
              mret get_default_geometry)
    else
      Py.emit (info [Lit "Awaiting GeoJSON input..."]);;
      mret get_default_geometry
  else mret get_default_geometry.

Definition load_sentinel_collection (aoi : ee.Geometry) (start_year end_year : Z)
  : ee.ImageCollection :=
  let start_date := ee.Date_fromYMD start_year 1 1 in
  let end_date := ee.Date_fromYMD end_year 12 31 in
  {| ee.collection_id := "COPERNICUS/S2";
     ee.filters := [ ee.Bounds aoi;
                     ee.DateRange (ee.AsDate start_date) (ee.AsDate end_date);
                     ee.Lt "CLOUDY_PIXEL_PERCENTAGE" (Q2Qc 10) ] |}.

Definition normalize (image : ee.Image) : ee.Image := ee.divide_image image 10000.

(** The text 'b5 - b4 - (b6 - b4)*((705-665)/(740-665))' *)
Definition mci_text : ee.Expr :=
  ee.ESub (ee.ESub (ee.EVar "b5") (ee.EVar "b4"))
    (ee.EMul (ee.ESub (ee.EVar "b6") (ee.EVar "b4"))
       (ee.EDiv (ee.ESub (ee.EInt 705) (ee.EInt 665))
                (ee.ESub (ee.EInt 740) (ee.EInt 665)))).

(** [img.expression(text, {'b4': b4, 'b5': b5, 'b6': b6})] *)
Definition mci_expression (b4 b5 b6 : string * ee.Band) : result (string * ee.Band) :=
  ee.expression mci_text [("b4", b4); ("b5", b5); ("b6", b6)].

Definition add_fai_mci_turbidity (image : ee.Image) : result ee.Image :=
  let img := normalize image in
  red ← ee.select "B4" img;
  nir ← ee.select "B8" img;
  swir ← ee.select "B11" img;
  let RED_WL := 665 in
  let NIR_WL := 842 in
  let SWIR_WL := 1610 in
  let baseline :=
    ee.add red (ee.divide_by (ee.multiply_by (ee.subtract swir red) (NIR_WL - RED_WL))
                             (SWIR_WL - RED_WL)) in
  let fai := ee.rename (ee.subtract nir baseline) "FAI" in
  b4 ← ee.select "B4" img;
  b5 ← ee.select "B5" img;
  b6 ← ee.select "B6" img;
  e ← mci_expression b4 b5 b6;
  let mci := ee.rename e "MCI" in
  b11 ← ee.select "B11" img;
  b4' ← ee.select "B4" img;
  let turb := ee.rename (ee.divide b11 b4') "Turbidity" in
  Ok (ee.addBands image (ee.combine [fai; mci; turb])).

Definition compute_mean_image (per_image : ee.Image → result ee.Image)
    (collection : ee.ImageCollection) : ee.Composite :=
  ee.mean_of per_image collection ["FAI"; "MCI"; "Turbidity"].

(** An exception of [getInfo] passes through; [float(None)] raises
    [TypeError]. *)
Definition compute_mean_value (service : ee.Service) (img : ee.Composite)
    (band : string) (aoi : ee.Geometry) : M Qc :=
  match service img band aoi with
  | Ok (Some v) => mret v
  | Ok None => Py.raise TypeError
  | Raise e => Py.raise e
  end.

(** [thresholds[key]] *)
Definition lookup_threshold (thresholds : gmap string Qc) (key : string) : M Qc :=
  match thresholds !! key with
  | Some t => mret t
  | None => Py.raise (KeyError key)
  end.

(** The [for] loop of [render_sidebar_metrics]; [alerts] is the list built
    so far. *)
Fixpoint metrics_loop (service : ee.Service) (keys : list string)
    (mean_img : ee.Composite) (aoi : ee.Geometry) (thresholds : gmap string Qc)
    (alerts : list string) : M (list string) :=
  match keys with
  | [] => mret alerts
  | key :: rest =>
      val ← compute_mean_value service mean_img key aoi;
      Py.emit (markdown [Lit "- **"; Lit key; Lit " Mean:** "; Fixed3 val]);;
      t ← lookup_threshold thresholds key;
      metrics_loop service rest mean_img aoi thresholds
        (if bool_decide (t < val)%Qc then alerts ++ [key] else alerts)
  end.

Definition alert_box (alerts : list string) : st_call :=
  error [Lit "Alert: "; Lit (String.concat ", " alerts); Lit " above safe levels!"].

Definition safe_box : st_call := success [Lit "All metrics within safe limits"].

Definition render_sidebar_metrics (service : ee.Service)
    (selected_layers : list string) (mean_img : ee.Composite)
    (aoi : ee.Geometry) (thresholds : gmap string Qc) : M unit :=
  Py.emit (markdown [Lit "## Water Quality Summary"]);;
  alerts ← metrics_loop service selected_layers mean_img aoi thresholds [];
  match alerts with
  | _ :: _ => Py.emit (alert_box alerts)
  | [] => Py.emit safe_box
  end.

Definition thresholds : gmap string Qc :=
  <["FAI" := Q2Qc 0.05]> (<["MCI" := Q2Qc 0.02]> (<["Turbidity" := Q2Qc 1.8]> ∅)).

(** What the user has set on the page. *)
Record Inputs : Type := {
  start_year : Z;
  end_year : Z;
  choice : string;
  geojson_str : string;
  checkbox : string → bool
}.

(** The sidebar part of [main]: from [get_custom_geometry] to
    [render_sidebar_metrics], without the calls on the page body (title, map,
    legends) and with [init_earth_engine] taken to have returned. *)
Definition main (ui : Inputs) (service : ee.Service) : M unit :=
  aoi ← get_custom_geometry (choice ui) (geojson_str ui);
  Py.emit (markdown [Lit "## Select Layers"]);;
  let layers := ["FAI"; "MCI"; "Turbidity"] in
  let selected := List.filter (checkbox ui) layers in
  let collection := load_sentinel_collection aoi (start_year ui) (end_year ui) in
  let mean_img := compute_mean_image add_fai_mci_turbidity collection in
  render_sidebar_metrics service selected mean_img aoi thresholds.

End App2.

(** ** [app3.py] *)

Module App3.

Definition API_BASE : string := "https://api.agromonitoring.com/agro/1.0".

Definition list_polygons_api (net : requests.Transport) (appid : string)
  : result json :=
  resp ← net (API_BASE +:+ "/polygons") appid;
  requests.raise_for_status resp;;
  requests.json resp.

Definition get_default_geometry : ee.Geometry := ee.Polygon [App2.default_coords].

Definition as_str (x : json) : result string :=
  match x with JStr s => Ok s | _ => Raise TypeError end.

(** [p['name'] + ' (' + p['id'] + ')'] *)
Definition label (p : json) : result string :=
  name ← PyOps.getitem p "name";
  a ← PyOps.str_add name (JStr " (");
  id ← PyOps.getitem p "id";
  b ← PyOps.str_add a id;
  c ← PyOps.str_add b (JStr ")");
  as_str c.

(** [st.sidebar.selectbox(label, options)]: the option at the position the
    user picked, the first one until they pick. *)
Definition selectbox (options : list string) (pick : nat) : string :=
  default (default "" (head options)) (options !! pick).

(** [names.index(choice)] *)
Fixpoint index_of (names : list string) (choice : string) : result nat :=
  match names with
  | [] => Raise ValueError
  | n :: names' =>
      if String.eqb n choice then Ok O
      else i ← index_of names' choice; Ok (S i)
  end.

Definition get_polygon_from_api (net : requests.Transport) (appid : string)
    (pick : nat) : result (option ee.Geometry) :=
  polygons ← list_polygons_api net appid;
  items ← PyOps.iter polygons;
  names ← mapM label items;
  let choice := selectbox ("--None--" :: names) pick in
  if negb (String.eqb choice "--None--") then
    idx ← index_of names choice;
    p ← PyOps.getitem_at polygons idx;
    gj ← PyOps.getitem p "geo_json";
    geom ← PyOps.getitem gj "geometry";
    g ← ee.Geometry_of geom;
    Ok (Some g)
  else Ok None.

(** The conditional expression that finds the geometry. *)
Definition locate_geometry (gj : json) : result json :=
  has_features ← PyOps.contains "features" gj;
  if has_features : bool then
    features ← PyOps.get gj "features" JNull;
    first ← PyOps.getitem_at features 0;
    PyOps.getitem first "geometry"
  else PyOps.get gj "geometry" gj.

(** The body of the [try] block. *)
Definition parse_geojson (geojson_str : string) : result ee.Geometry :=
  gj ← Json.loads geojson_str;
  geom ← locate_geometry gj;
  ee.Geometry_of geom.

(** [option] is what the radio button returns, [geojson_str] what the text
    area holds, [pick] the position chosen in the list of saved polygons. *)
Definition get_custom_geometry (net : requests.Transport)
    (option geojson_str : string) (pick : nat) (appid : string) : M ee.Geometry :=
  Py.emit (markdown [Lit "## AOI Selection"]);;
  if String.eqb option "Custom GeoJSON" then
    if negb (String.eqb geojson_str "") then
      Py.try_except
        (Py.lift (parse_geojson geojson_str))
        (λ _, Py.emit (error [Lit "Invalid GeoJSON input."]);;
              mret get_default_geometry)
    else mret get_default_geometry
  else if String.eqb option "Saved Polygon" && negb (String.eqb appid "") then
    geom ← Py.lift (get_polygon_from_api net appid pick);
    match geom with
    | Some g => mret g
    | None =>
        Py.emit (info [Lit "No saved polygon selected, using default."]);;
        mret get_default_geometry
    end
  else mret get_default_geometry.

Definition load_sentinel_collection (aoi : ee.Geometry) (sy ey : Z)
  : ee.ImageCollection :=
  let start := ee.Date_fromYMD sy 1 1 in
  let stop := ee.Date_fromYMD ey 12 31 in
  {| ee.collection_id := "COPERNICUS/S2";
     ee.filters := [ ee.Bounds aoi;
                     ee.DateRange (ee.AsDate start) (ee.AsDate stop);
                     ee.Lt "CLOUDY_PIXEL_PERCENTAGE" (Q2Qc 10) ] |}.

Definition normalize (img : ee.Image) : ee.Image := ee.divide_image img 10000.

Definition add_fai_mci_turbidity (img : ee.Image) : result ee.Image :=
  let norm := normalize img in
  red ← ee.select "B4" norm;
  nir ← ee.select "B8" norm;
  swir ← ee.select "B11" norm;
  let base :=
    ee.add red (ee.divide_by (ee.multiply_by (ee.subtract swir red) (842 - 665))
                             (1610 - 665)) in
  let fai := ee.rename (ee.subtract nir base) "FAI" in
  b4 ← ee.select "B4" norm;
  b5 ← ee.select "B5" norm;
  b6 ← ee.select "B6" norm;
  e ← App2.mci_expression b4 b5 b6;
  let mci := ee.rename e "MCI" in
  b11 ← ee.select "B11" norm;
  b4' ← ee.select "B4" norm;
  let turb := ee.rename (ee.divide b11 b4') "Turbidity" in
  Ok (ee.addBands img (ee.combine [fai; mci; turb])).

Definition compute_mean_image (per_image : ee.Image → result ee.Image)
    (col : ee.ImageCollection) : ee.Composite :=
  ee.mean_of per_image col ["FAI"; "MCI"; "Turbidity"].

Definition compute_mean_value (service : ee.Service) (img : ee.Composite)
    (band : string) (aoi : ee.Geometry) : M Qc :=
  match service img band aoi with
  | Ok (Some v) => mret v
  | Ok None => Py.raise TypeError
  | Raise e => Py.raise e
  end.

Definition lookup_threshold (thresholds : gmap string Qc) (k : string) : M Qc :=
  match thresholds !! k with
  | Some t => mret t
  | None => Py.raise (KeyError k)
  end.

Fixpoint metrics_loop (service : ee.Service) (selected : list string)
    (mean_img : ee.Composite) (aoi : ee.Geometry) (thresholds : gmap string Qc)
    (alerts : list string) : M (list string) :=
  match selected with
  | [] => mret alerts
  | k :: rest =>
      v ← compute_mean_value service mean_img k aoi;
      Py.emit (markdown [Lit "- **"; Lit k; Lit " Mean:** "; Fixed3 v]);;
      t ← lookup_threshold thresholds k;
      metrics_loop service rest mean_img aoi thresholds
        (if bool_decide (t < v)%Qc then alerts ++ [k] else alerts)
  end.

Definition alert_box (alerts : list string) : st_call :=
  error [Lit ("Alert:" +:+ String.concat "," alerts +:+ " above safe levels!")].

Definition safe_box : st_call := success [Lit "All metrics within safe limits"].

Definition render_sidebar_metrics (service : ee.Service) (selected : list string)
    (mean_img : ee.Composite) (aoi : ee.Geometry) (thresholds : gmap string Qc)
  : M unit :=
  Py.emit (markdown [Lit "## Water Quality Summary"]);;
  alerts ← metrics_loop service selected mean_img aoi thresholds [];
  match alerts with
  | _ :: _ => Py.emit (alert_box alerts)
  | [] => Py.emit safe_box
  end.

Definition thresh : gmap string Qc :=
  <["FAI" := Q2Qc 0.05]> (<["MCI" := Q2Qc 0.02]> (<["Turbidity" := Q2Qc 1.8]> ∅)).

Record Inputs : Type := {
  appid : string;
  sy : Z;
  ey : Z;
  option : string;
  geojson_str : string;
  pick : nat;
  checkbox : string → bool
}.

(** The sidebar part of [main]: from [get_custom_geometry] to
    [render_sidebar_metrics], without the calls on the page body (title, map,
    legends) and with [init_earth_engine] taken to have returned. *)
Definition main (ui : Inputs) (net : requests.Transport) (service : ee.Service)
  : M unit :=
  aoi ← get_custom_geometry net (option ui) (geojson_str ui) (pick ui) (appid ui);
  Py.emit (markdown [Lit "## Select Layers"]);;
  let layers := ["FAI"; "MCI"; "Turbidity"] in
  let selected := List.filter (checkbox ui) layers in
  let col := load_sentinel_collection aoi (sy ui) (ey ui) in
  let mean_img := compute_mean_image add_fai_mci_turbidity col in
  render_sidebar_metrics service selected mean_img aoi thresh.

End App3.

(** ** [app.py], the first version of the page *)

Module App.

Definition lake : ee.Geometry := ee.Polygon [App2.default_coords].

(** The f-strings f'{start_year}-01-01' and f'{end_year}-12-31'. *)
Definition collection (start_year end_year : Z) : ee.ImageCollection :=
  {| ee.collection_id := "COPERNICUS/S2";
     ee.filters := [ ee.Bounds lake;
                     ee.DateRange (ee.AsText (pretty start_year +:+ "-01-01"))
                                  (ee.AsText (pretty end_year +:+ "-12-31"));
                     ee.Lt "CLOUDY_PIXEL_PERCENTAGE" (Q2Qc 10) ] |}.

(** No normalisation here: the bands are used in their raw units. *)
Definition add_fai_mci (image : ee.Image) : result ee.Image :=
  red ← ee.select "B4" image;
  nir ← ee.select "B8" image;
  swir1 ← ee.select "B11" image;
  let RED_WL := 665 in
  let NIR_WL := 842 in
  let SWIR_WL := 1610 in
  let baseline :=
    ee.add red (ee.divide_by (ee.multiply_by (ee.subtract swir1 red) (NIR_WL - RED_WL))
                             (SWIR_WL - RED_WL)) in
  let fai := ee.rename (ee.subtract nir baseline) "FAI" in
  b4 ← ee.select "B4" image;
  b5 ← ee.select "B5" image;
  b6 ← ee.select "B6" image;
  e ← App2.mci_expression b4 b5 b6;
  let mci := ee.rename e "MCI" in
  Ok (ee.addBands (ee.addBands image [fai]) [mci]).

End App.

(** ** The specification's formulas and predicates, in its own words *)

Module Spec.

Definition qz (z : Z) : Qc := Q2Qc (inject_Z z).

(** "all inputs normalized to 0-1 by dividing raw values by 10000" *)
Definition normalized (raw : Qc) : Qc := (raw / qz 10000)%Qc.




Definition derived : list string := ["FAI"; "MCI"; "Turbidity"].
Definition raw : list string := ["B4"; "B5"; "B6"; "B8"; "B11"].

(** "ring must have at least 4 points and be closed" (first vertex equals
    last), for a ring given as a decoded array of positions *)
Definition ring_ok (ring : json) : bool :=
  match ring with
  | JArr pts =>
      (4 <=? Z.of_nat (length pts))
      && match head pts, last pts with
         | Some (JArr [JNum (Finite x); JNum (Finite y)]),
           Some (JArr [JNum (Finite x'); JNum (Finite y')]) =>
             Qc_eq_bool x x' && Qc_eq_bool y y'
         | _, _ => false
         end
  | _ => false
  end.

(** The invariant on a polygon geometry: every ring passes [ring_ok]. *)
Definition geometry_ok (g : ee.Geometry) : bool :=
  match ee.g_coordinates g with
  | Some (JArr rings) => forallb ring_ok rings
  | _ => false
  end.

End Spec.

(** The image of the worked example: constant raw bands. *)
Definition sample_image : ee.Image :=
  [ ("B4", λ _, Spec.qz 2000); ("B8", λ _, Spec.qz 4000);
    ("B11", λ _, Spec.qz 3000); ("B5", λ _, Spec.qz 2500);
    ("B6", λ _, Spec.qz 3200) ].

(** The value of band [name] of [img] at pixel [p]. *)
Definition value_at (name : string) (img : ee.Image) (p : ee.Pixel) : result Qc :=
  b ← ee.select name img; Ok (snd b p).

(** The three bands the index function computes from the raw bands, in the
    shape the code gives them.  In the MCI band the factor is the integer
    quotient of 40 by 75, which is 0. *)
Definition index_bands (b4 b5 b6 b8 b11 : ee.Band) : list (string * ee.Band) :=
  let n (b : ee.Band) : ee.Band := λ p, (b p / Spec.qz 10000)%Qc in
  [ ("FAI", λ p, (n b8 p - (n b4 p + (n b11 p - n b4 p) * Spec.qz 177 / Spec.qz 945))%Qc);
    ("MCI", λ p, (n b5 p - n b4 p - (n b6 p - n b4 p) * Spec.qz (40 / 75))%Qc);
    ("Turbidity", λ p, (n b11 p / n b4 p)%Qc) ].

(** ** Worked examples and auxiliary notions *)

(** An image that already has a band called FAI. *)
Definition with_fai : ee.Image := sample_image ++ [("FAI", λ _, Spec.qz 7)].

(** Whether index [k] is above its threshold, given the means [agg]. *)
Definition exceeds (agg : string → option Qc) (thresholds : gmap string Qc)
    (k : string) : bool :=
  match agg k, thresholds !! k with
  | Some v, Some t => bool_decide (t < v)%Qc
  | _, _ => false
  end.

(** The line the page prints for index [k]. *)
Definition mean_line (agg : string → option Qc) (k : string) : st_call :=
  markdown [Lit "- **"; Lit k; Lit " Mean:** "; Fixed3 (default (Q2Qc 0) (agg k))].

(** The means a service has for a composite over an area: the numbers
    [compute_mean_value] returns, where it returns. *)
Definition means (service : ee.Service) (img : ee.Composite) (aoi : ee.Geometry)
    (k : string) : option Qc :=
  match service img k aoi with
  | Ok (Some v) => Some v
  | _ => None
  end.

(** The means of the example in the specification. *)
Definition example_service : ee.Service := λ _ band _,
  if String.eqb band "FAI" then Ok (Some (Q2Qc 0.06))
  else if String.eqb band "MCI" then Ok (Some (Q2Qc 0.01))
  else if String.eqb band "Turbidity" then Ok (Some (Q2Qc 1.8))
  else Ok None.

(** A service that cannot be reached. *)
Definition service_down : ee.Service := λ _ _ _,
  Raise (EEException "Computation timed out.").

(** A page with the default lake and no layer box ticked, in both versions. *)
Definition ui_none : App2.Inputs :=
  {| App2.start_year := 2020; App2.end_year := 2024;
     App2.choice := "Default Lake"; App2.geojson_str := "";
     App2.checkbox := λ _, false |}.

Definition ui3_none : App3.Inputs :=
  {| App3.appid := ""; App3.sy := 2020; App3.ey := 2024;
     App3.option := "Default Lake"; App3.geojson_str := ""; App3.pick := 0%nat;
     App3.checkbox := λ _, false |}.

(** The catalogue cannot be reached. *)
Definition no_network : requests.Transport := λ _ _, Raise ConnectionError.

(** The two bounds handed to [filterDate]. *)
Definition date_window (c : ee.ImageCollection) : option (ee.DateArg * ee.DateArg) :=
  head (omap (λ f, match f with ee.DateRange a b => Some (a, b) | _ => None end)
          (ee.filters c)).

(** The ceiling handed to the filter on the cloud percentage. *)
Definition cloud_ceiling (c : ee.ImageCollection) : option Qc :=
  head (omap (λ f, match f with
                   | ee.Lt "CLOUDY_PIXEL_PERCENTAGE" v => Some v
                   | _ => None
                   end) (ee.filters c)).

(** The cloud percentage of an image of the catalogue. *)
Definition cloud (im : ee.ImageInfo) : option Qc :=
  ee.properties im !! "CLOUDY_PIXEL_PERCENTAGE".

(** An image of mid June 2022 over the lake, 7 % cloudy. *)
Definition image_7pct : ee.ImageInfo :=
  {| ee.time_start := {| ee.year := 2022; ee.month := 6; ee.day := 15; ee.millis := 0 |};
     ee.properties := {[ "CLOUDY_PIXEL_PERCENTAGE" := Q2Qc 7 ]};
     ee.intersects := λ _, true |}.

(** The heading both versions print before they resolve the area. *)
Definition aoi_header : st_call := markdown [Lit "## AOI Selection"].

(** The ring of the default polygon. *)
Definition default_ring : list json :=
  map (λ xy, ee.point (fst xy) (snd xy)) App2.default_coords.

(** A ring of positions as the decoder returns it. *)
Definition ring_literal (ring : list (Q * Q)) : json :=
  JArr (map (λ xy, ee.point (fst xy) (snd xy)) ring).

(** A polygon whose only ring has three positions and does not close. *)
Definition open_triangle : string :=
  quoted "{'type': 'Polygon', 'coordinates': [[[0, 0], [1, 0], [0, 1]]]}".

(** A catalogue answer with one polygon. *)
Definition one_polygon : requests.Transport := λ _ _,
  Ok {| requests.status_code := 200;
        requests.json_text :=
          quoted "[{'id': 'p1', 'name': 'Lake', 'geo_json': {'type': 'Feature', 'geometry': {'type': 'Polygon', 'coordinates': [[[0, 0], [1, 0], [1, 1], [0, 0]]]}}}]" |}.

(** The catalogue refuses the key. *)
Definition unauthorized : requests.Transport := λ _ _,
  Ok {| requests.status_code := 401; requests.json_text := "{}" |}.

(** The catalogue answers with something that is not JSON. *)
Definition garbled : requests.Transport := λ _ _,
  Ok {| requests.status_code := 200; requests.json_text := "<html>" |}.

(** ** The page body: map layers, legends, and the report of [app.py]

    Calls on [st] itself and on the map, which [App2.main] and [App3.main]
    above leave out. *)

Module Page.

(** A fragment of an f-string on the page body. *)
Inductive frag : Type :=
| Text (s : string)
| Num (v : Qc)            (* {v} *)
| Fixed4 (v : Qc).        (* {v:.4f} *)

(** One call on [st]. *)
Inductive call : Type :=
| p_markdown (t : list frag)
| p_subheader (t : list frag)
| p_success (t : list frag).

(** A visualisation dictionary with its three entries. *)
Record VisParams : Type := { vmin : Qc; vmax : Qc; palette : list string }.

Inductive layer_object : Type :=
| ClippedBand (img : ee.Composite) (band : string) (aoi : ee.Geometry)
    (* img.select(band).clip(aoi) *)
| Band_of (img : ee.Composite) (band : string)
    (* img.select(band) *)
| Shape (g : ee.Geometry).

Inductive layer_vis : Type :=
| Ramp (v : VisParams)
| Color (c : string).         (* {'color': c} *)

Record Layer : Type := {
  l_object : layer_object;
  l_vis : layer_vis;
  l_name : string;
  l_opacity : Qc
}.

(** A [geemap.Map]: its layers, bottom first, and the height it was shown
    with once [to_streamlit] has been called. *)
Record Map : Type := { layers : list Layer; shown : option Z }.


(** [m.addLayer(object, vis, name, opacity)]; the opacity defaults to 1. *)
Definition addLayer (m : Map) (l : Layer) : Map :=
  {| layers := layers m ++ [l]; shown := shown m |}.

Definition to_streamlit (m : Map) (height : Z) : Map :=
  {| layers := layers m; shown := Some height |}.

(** [d[key]] on a dictionary kept as the list of its items *)
Fixpoint item {A} (d : list (string * A)) (key : string) : result A :=
  match d with
  | [] => Raise (KeyError key)
  | (k, v) :: d' => if String.eqb key k then Ok v else item d' key
  end.

End Page.

Module App2_page.

Import Page.

(** The loop of [display_layers]; the map is updated in place, so the layers
    added before an exception stay on it. *)
Fixpoint add_index_layers (map_obj : Map) (mean_img : ee.Composite)
    (layers : list string) (vis_params : list (string * VisParams))
    (aoi : ee.Geometry) : Map * result unit :=
  match layers with
  | [] => (map_obj, Ok tt)
  | key :: rest =>
      match item vis_params key with
      | Raise e => (map_obj, Raise e)
      | Ok vis =>
          add_index_layers
            (addLayer map_obj
               {| l_object := ClippedBand mean_img key aoi;
                  l_vis := Ramp vis;
                  l_name := key +:+ " Index";
                  l_opacity := Q2Qc 0.6 |})
            mean_img rest vis_params aoi
      end
  end.

Definition display_layers (map_obj : Map) (mean_img : ee.Composite)
    (layers : list string) (vis_params : list (string * VisParams))
    (aoi : ee.Geometry) : Map * result unit :=
  match add_index_layers map_obj mean_img layers vis_params aoi with
  | (m, Raise e) => (m, Raise e)
  | (m, Ok _) =>
      let m1 := addLayer m {| l_object := Shape aoi; l_vis := Color "red";
                              l_name := "Boundary"; l_opacity := Q2Qc 1 |} in
      (to_streamlit m1 600, Ok tt)
  end.

(** One legend line of [app2.py]; [thresholds.get(key, 'N/A')]. *)
Definition legend_line (thresholds : gmap string Qc) (key : string)
    (params : VisParams) : call :=
  let th := match thresholds !! key with Some t => Num t | None => Text "N/A" end in
  p_markdown [ Text "**"; Text key; Text "**: Range ["; Num (vmin params); Text ", ";
               Num (vmax params); Text "], Colors: ";
               Text (String.concat " → " (palette params));
               Text ", Alert if > "; th ].

Definition describe_legends (vis_params : list (string * VisParams))
    (thresholds : gmap string Qc) : list call :=
  p_markdown [Text "### Legends & Thresholds"]
  :: map (λ kv, legend_line thresholds (fst kv) (snd kv)) vis_params.

(** The [vis_params] of [main]. *)
Definition vis_params : list (string * VisParams) :=
  [ ("FAI", {| vmin := Q2Qc (-0.1); vmax := Q2Qc 0.1;
               palette := ["white"; "green"; "blue"] |});
    ("MCI", {| vmin := Q2Qc (-0.05); vmax := Q2Qc 0.2;
               palette := ["white"; "orange"; "red"] |});
    ("Turbidity", {| vmin := Q2Qc 0; vmax := Q2Qc 3;
                     palette := ["blue"; "yellow"; "red"] |}) ].


End App2_page.

Module App3_page.

Import Page.

Definition display_layers (m : Map) (mean_img : ee.Composite)
    (layers : list string) (vis_params : list (string * VisParams))
    (aoi : ee.Geometry) : Map * result unit :=
  App2_page.display_layers m mean_img layers vis_params aoi.

(** The loop of [describe_legends] of [app3.py]: here the threshold is read
    with [thresholds[k]]; [done] holds the lines written so far. *)
Fixpoint legend_lines (vis_params : list (string * VisParams))
    (thresholds : gmap string Qc) (done : list call) : list call * result unit :=
  match vis_params with
  | [] => (done, Ok tt)
  | (k, p) :: rest =>
      match thresholds !! k with
      | None => (done, Raise (KeyError k))
      | Some t =>
          legend_lines rest thresholds
            (done ++ [ p_markdown
                         [ Text "**"; Text k; Text "**: Range ["; Num (vmin p);
                           Text ","; Num (vmax p); Text "], Colors: ";
                           Text (String.concat "→" (palette p));
                           Text ", Alert > "; Num t ] ])
      end
  end.

Definition describe_legends (vis_params : list (string * VisParams))
    (thresholds : gmap string Qc) : list call * result unit :=
  legend_lines vis_params thresholds [p_markdown [Text "### Legends & Thresholds"]].

End App3_page.

Module App_page.

Import Page.

Definition threshold_fai : Qc := Q2Qc 0.05.
Definition threshold_mci : Qc := Q2Qc 0.02.

(** [f'{v:.4f}'] raises [TypeError] when [v] is [None]. *)
Definition fixed4 (v : option Qc) : result frag :=
  match v with Some x => Ok (Fixed4 x) | None => Raise TypeError end.

(** [a > b] raises [TypeError] when [a] is [None]. *)
Definition gt (a : option Qc) (b : Qc) : result bool :=
  match a with Some x => Ok (bool_decide (b < x)%Qc) | None => Raise TypeError end.

(** The end of the script, from [fai_val = fai_mean.getInfo()] on: the two
    means as the service returned them ([None] when the region held no valid
    pixel), the calls made on the page, and the outcome. *)
Definition report (fai_val mci_val : option Qc) : list call * result unit :=
  let head := [p_subheader [Text "Algal Bloom Detection"]] in
  match fixed4 fai_val with
  | Raise e => (head, Raise e)
  | Ok f =>
      let c1 := head ++ [p_markdown [Text "**FAI Mean:** "; f]] in
      match fixed4 mci_val with
      | Raise e => (c1, Raise e)
      | Ok m =>
          let c2 := c1 ++ [p_markdown [Text "**MCI Mean:** "; m]] in
          match gt fai_val threshold_fai, gt mci_val threshold_mci with
          | Ok hi_fai, Ok hi_mci =>
              if hi_fai || hi_mci then
                (c2 ++ [p_markdown [Text "### Alert: Algae Bloom Detected"]]
                    ++ (if hi_fai
                        then [p_markdown [Text "- **FAI** is above safe level: "; f;
                                          Text " > "; Num threshold_fai]]
                        else [])
                    ++ (if hi_mci
                        then [p_markdown [Text "- **MCI** is above safe level: "; m;
                                          Text " > "; Num threshold_mci]]
                        else []),
                 Ok tt)
              else
                (c2 ++ [p_success [Text "Water quality appears within safe limits based on FAI and MCI."]],
                 Ok tt)
          | Raise e, _ => (c2, Raise e)
          | _, Raise e => (c2, Raise e)
          end
      end
  end.

End App_page.

(** ** Notions used by the further properties *)

(** What the custom mode of [app2.py] makes of the outcome of building a
    geometry. *)
Definition resolved2 (r : result ee.Geometry) : M ee.Geometry :=
  match r with
  | Ok g => ([aoi_header], Ok g)
  | Raise e =>
      ([aoi_header; error [Lit "Invalid GeoJSON: "; Shown e]],
       Ok App2.get_default_geometry)
  end.

(** The same for [app3.py]. *)
Definition resolved3 (r : result ee.Geometry) : M ee.Geometry :=
  match r with
  | Ok g => ([aoi_header], Ok g)
  | Raise e =>
      ([aoi_header; error [Lit "Invalid GeoJSON input."]],
       Ok App3.get_default_geometry)
  end.

(** A geometry, the same geometry in a Feature, and a collection whose first
    feature holds it. *)
Definition bare_text : string :=
  quoted "{'type': 'Polygon', 'coordinates': [[[0, 0], [1, 0], [1, 1], [0, 0]]]}".

Definition feature_text : string :=
  quoted "{'type': 'Feature', 'properties': {}, 'geometry': {'type': 'Polygon', 'coordinates': [[[0, 0], [1, 0], [1, 1], [0, 0]]]}}".

Definition collection_text : string :=
  quoted "{'type': 'FeatureCollection', 'features': [{'type': 'Feature', 'geometry': {'type': 'Polygon', 'coordinates': [[[0, 0], [1, 0], [1, 1], [0, 0]]]}}, {'type': 'Feature', 'geometry': null}]}".




(** A catalogue answer whose second record has no id. *)
Definition missing_id_body : string :=
  quoted "[{'id': 'p1', 'name': 'Lake', 'geo_json': {}}, {'name': 'Pond'}]".

Definition missing_id : requests.Transport := λ _ _,
  Ok {| requests.status_code := 200; requests.json_text := missing_id_body |}.

Definition missing_id_records : list json :=
  match Json.loads missing_id_body with
  | Ok (JArr l) => l
  | _ => []
  end.

(** The two bands [add_fai_mci] of [app.py] computes from the raw bands, in
    the shape the code gives them. *)
Definition raw_index_bands (b4 b5 b6 b8 b11 : ee.Band) : list (string * ee.Band) :=
  [ ("FAI", λ p, (b8 p - (b4 p + (b11 p - b4 p) * Spec.qz 177 / Spec.qz 945))%Qc);
    ("MCI", λ p, (b5 p - b4 p - (b6 p - b4 p) * Spec.qz (40 / 75))%Qc) ].

(** Whether a sidebar call is a plain [markdown] line, as opposed to one of
    the boxes. *)
Definition is_markdown (c : st_call) : bool :=
  match c with markdown _ => true | _ => false end.



(** The layers ticked on a page. *)
Definition ticked (checkbox : string → bool) : list string :=
  List.filter checkbox ["FAI"; "MCI"; "Turbidity"].

(** A page of [app2.py] with the default lake and only Turbidity ticked. *)
Definition ui_turbidity : App2.Inputs :=
  {| App2.start_year := 2020; App2.end_year := 2024;
     App2.choice := "Default Lake"; App2.geojson_str := "";
     App2.checkbox := λ l, String.eqb l "Turbidity" |}.



(** An image of the catalogue taken over the default lake at the given
    instant, free of clouds. *)
Definition image_at (y m d ms : Z) : ee.ImageInfo :=
  {| ee.time_start := {| ee.year := y; ee.month := m; ee.day := d; ee.millis := ms |};
     ee.properties := {[ "CLOUDY_PIXEL_PERCENTAGE" := Q2Qc 0 ]};
     ee.intersects := λ _, true |}.

(** * Properties *)

(** ** The decoder

    The fuel of [Json.loads] is never the reason for a refusal: every scan
    leaves fewer characters than it found, so any fuel above twice the length
    of the text gives the same answer. *)

Section Decoder.

Local Open Scope nat_scope.

Lemma skip_ws_length s : length (skip_ws s) ≤ length s.
Proof.
  induction s as [|c s IH]; simpl; [lia|].
  destruct (is_ws c); simpl; lia.
Qed.

Lemma scanstring_length s : ∀ acc str r,
  scanstring s acc = Some (str, r) → length r < length s.
Proof.
  induction s as [s IH] using (induction_ltof1 _ (@length _)). unfold ltof in IH.
  intros acc str r. destruct s as [|c t]; simpl; [discriminate|].
  destruct (c =? dquote)%char; [intros [= _ <-]; lia|].
  destruct (c =? backslash)%char.
  - destruct t as [|e t1]; [discriminate|].
    destruct (e =? "u")%char.
    + destruct t1 as [|h1 [|h2 [|h3 [|h4 t2]]]]; try discriminate.
      destruct (hex4 h1 h2 h3 h4) as [u|]; [|discriminate].
      assert (Hrec : ∀ acc', scanstring t2 acc' = Some (str, r) →
                length r < length (c :: e :: h1 :: h2 :: h3 :: h4 :: t2)).
      { intros acc' H. apply IH in H; simpl in *; lia. }
      destruct (_ && _)%bool; [|apply Hrec].
      destruct t2 as [|b [|v t4]]; try apply Hrec.
      destruct (_ && _)%bool; [|apply Hrec].
      destruct t4 as [|k1 [|k2 [|k3 [|k4 t5]]]]; try discriminate.
      destruct (hex4 k1 k2 k3 k4) as [u2|]; [|discriminate].
      destruct (_ && _)%bool; [|apply Hrec].
      intros H. apply IH in H; simpl in *; lia.
    + destruct (simple_escape e); [|discriminate].
      intros H. apply IH in H; simpl in *; lia.
  - destruct (code c <? 32)%Z; [discriminate|].
    intros H. apply IH in H; simpl in *; lia.
Qed.

Lemma take_digits_length s : ∀ ds r, take_digits s = (ds, r) → length r ≤ length s.
Proof.
  induction s as [|c t IH]; simpl; intros ds r.
  - intros [= _ <-]. simpl. lia.
  - destruct (digit_val c); [|intros [= _ <-]; simpl; lia].
    destruct (take_digits t) as [ds' r'] eqn:E. intros [= _ <-].
    specialize (IH _ _ eq_refl). lia.
Qed.

Lemma match_number_length s q r : match_number s = Some (q, r) → length r < length s.
Proof.
  unfold match_number.
  destruct (match s with [] => _ | c :: t => _ end) as [neg s1] eqn:E1.
  assert (H1 : length s1 ≤ length s).
  { destruct s as [|c t]; [injection E1 as _ <-; lia|].
    destruct (c =? "-")%char; injection E1 as _ <-; simpl; lia. }
  destruct (match s1 with [] => None | c :: t => _ end) as [[ip r0]|] eqn:E2; [|discriminate].
  assert (H2 : length r0 < length s1).
  { destruct s1 as [|c t]; [discriminate|].
    destruct (c =? "0")%char; [injection E2 as _ <-; simpl; lia|].
    destruct (digit_val c); [|discriminate].
    destruct (take_digits t) as [ds r'] eqn:E. injection E2 as _ <-.
    apply take_digits_length in E. simpl. lia. }
  destruct (match r0 with [] => _ | c :: t => _ end) as [fp r1] eqn:E3.
  assert (H3 : length r1 ≤ length r0).
  { destruct r0 as [|c t]; [injection E3 as _ <-; lia|].
    destruct (c =? ".")%char; [|injection E3 as _ <-; lia].
    destruct (take_digits t) as [[|d ds] r'] eqn:E; injection E3 as _ <-; [lia|].
    apply take_digits_length in E. simpl. lia. }
  destruct (match r1 with [] => _ | c :: t => _ end) as [ex r2] eqn:E4.
  assert (H4 : length r2 ≤ length r1).
  { destruct r1 as [|c t]; [injection E4 as _ <-; lia|].
    destruct (_ || _)%bool; [|injection E4 as _ <-; lia].
    destruct (match t with [] => _ | c' :: t'' => _ end) as [sgn t'] eqn:E5.
    assert (length t' ≤ length t).
    { destruct t as [|c' t'']; [injection E5 as _ <-; lia|].
      destruct (c' =? "-")%char; [injection E5 as _ <-; simpl; lia|].
      destruct (c' =? "+")%char; injection E5 as _ <-; simpl; lia. }
    destruct (take_digits t') as [[|d ds] r'] eqn:E; injection E4 as _ <-; [lia|].
    apply take_digits_length in E. simpl. lia. }
  intros [= _ <-]. lia.
Qed.

Lemma strip_prefix_length p : ∀ s r,
  strip_prefix p s = Some r → length r + length p = length s.
Proof.
  induction p as [|a p IH]; intros s r; simpl.
  - intros [= <-]. lia.
  - destruct s as [|b s]; [discriminate|].
    destruct (a =? b)%char; [|discriminate]. intros H%IH. simpl. lia.
Qed.

Lemma literal_length p v s v' r :
  p ≠ EmptyString → literal p v s = Some (v', r) → length r < length s.
Proof.
  intros Hp. unfold literal.
  destruct (strip_prefix _ s) as [r'|] eqn:E; [|discriminate].
  intros [= _ <-]. apply strip_prefix_length in E.
  destruct p; [done|]. simpl in E. lia.
Qed.

Lemma scan_progress n :
  (∀ s v r, scan_once n s = Some (v, r) → length r < length s)
  ∧ (∀ s acc v r, scan_items n s acc = Some (v, r) → length r < length s)
  ∧ (∀ s acc v r, scan_members n s acc = Some (v, r) → length r < length s).
Proof.
  induction n as [|n (IHo & IHi & IHm)]; [by repeat split|].
  split; [|split].
  - intros s v r. simpl. destruct s as [|c t]; [discriminate|].
    destruct (c =? dquote)%char.
    { destruct (scanstring t []) as [[str r']|] eqn:E; [|discriminate].
      intros [= _ <-]. apply scanstring_length in E. simpl. lia. }
    destruct (c =? "{")%char.
    { pose proof (skip_ws_length t) as Hw.
      destruct (skip_ws t) as [|c' t']; [discriminate|]. simpl in Hw.
      destruct (c' =? "}")%char; [intros [= _ <-]; simpl; lia|].
      destruct (c' =? dquote)%char; [|discriminate].
      intros Hr%IHm. simpl. lia. }
    destruct (c =? "[")%char.
    { pose proof (skip_ws_length t) as Hw.
      destruct (skip_ws t) as [|c' t']; [discriminate|]. simpl in Hw.
      destruct (c' =? "]")%char; [intros [= _ <-]; simpl; lia|].
      intros Hr%IHi. simpl in *. lia. }
    destruct (c =? "n")%char; [by apply literal_length|].
    destruct (c =? "t")%char; [by apply literal_length|].
    destruct (c =? "f")%char; [by apply literal_length|].
    destruct (match_number (c :: t)) as [[q r']|] eqn:E.
    { intros [= _ <-]. by apply match_number_length in E. }
    destruct (c =? "N")%char; [by apply literal_length|].
    destruct (c =? "I")%char; [by apply literal_length|].
    destruct (c =? "-")%char; [by apply literal_length|discriminate].
  - intros s acc v r. simpl.
    destruct (scan_once n s) as [[v' r']|] eqn:E; [|discriminate].
    apply IHo in E. pose proof (skip_ws_length r') as Hw.
    destruct (skip_ws r') as [|c t]; [discriminate|]. simpl in Hw.
    destruct (c =? "]")%char; [intros [= _ <-]; lia|].
    destruct (c =? ",")%char; [|discriminate].
    intros Hr%IHi. pose proof (skip_ws_length t). lia.
  - intros s acc v r. simpl.
    destruct (scanstring s []) as [[key r0]|] eqn:E; [|discriminate].
    apply scanstring_length in E. pose proof (skip_ws_length r0) as Hw.
    destruct (skip_ws r0) as [|c t]; [discriminate|]. simpl in Hw.
    destruct (c =? ":")%char; [|discriminate].
    destruct (scan_once n (skip_ws t)) as [[v' r']|] eqn:E'; [|discriminate].
    apply IHo in E'. pose proof (skip_ws_length t). pose proof (skip_ws_length r') as Hw'.
    destruct (skip_ws r') as [|c' t']; [discriminate|]. simpl in Hw'.
    destruct (c' =? "}")%char; [intros [= _ <-]; lia|].
    destruct (c' =? ",")%char; [|discriminate].
    pose proof (skip_ws_length t') as Hw''.
    destruct (skip_ws t') as [|q t'']; [discriminate|]. simpl in Hw''.
    destruct (q =? dquote)%char; [|discriminate].
    intros Hr%IHm. lia.
Qed.

(** Fuel beyond the bound changes nothing. *)
Lemma scan_stable n : ∀ m,
  (∀ s, 2 * length s + 2 ≤ n → 2 * length s + 2 ≤ m → scan_once n s = scan_once m s)
  ∧ (∀ s acc, 2 * length s + 3 ≤ n → 2 * length s + 3 ≤ m →
       scan_items n s acc = scan_items m s acc)
  ∧ (∀ s acc, 2 * length s + 3 ≤ n → 2 * length s + 3 ≤ m →
       scan_members n s acc = scan_members m s acc).
Proof.
  induction n as [|n IH]; intros m.
  { repeat split; intros; lia. }
  destruct m as [|m]; [repeat split; intros; lia|].
  destruct (IH m) as (IHo & IHi & IHm). clear IH.
  split; [|split].
  - intros s Hn Hm. simpl. destruct s as [|c t]; [reflexivity|]. simpl in Hn, Hm.
    destruct (c =? dquote)%char; [reflexivity|].
    destruct (c =? "{")%char.
    { pose proof (skip_ws_length t) as Hw.
      destruct (skip_ws t) as [|c' t']; [reflexivity|]. simpl in Hw.
      destruct (c' =? "}")%char; [reflexivity|].
      destruct (c' =? dquote)%char; [|reflexivity].
      apply IHm; lia. }
    destruct (c =? "[")%char.
    { pose proof (skip_ws_length t) as Hw.
      destruct (skip_ws t) as [|c' t']; [reflexivity|]. simpl in Hw.
      destruct (c' =? "]")%char; [reflexivity|].
      apply IHi; simpl; lia. }
    reflexivity.
  - intros s acc Hn Hm. simpl.
    rewrite (IHo s) by lia.
    destruct (scan_once m s) as [[v' r']|] eqn:E; [|reflexivity].
    apply (proj1 (scan_progress m)) in E. pose proof (skip_ws_length r') as Hw.
    destruct (skip_ws r') as [|c t]; [reflexivity|]. simpl in Hw.
    destruct (c =? "]")%char; [reflexivity|].
    destruct (c =? ",")%char; [|reflexivity].
    pose proof (skip_ws_length t). apply IHi; lia.
  - intros s acc Hn Hm. simpl.
    destruct (scanstring s []) as [[key r0]|] eqn:E; [|reflexivity].
    apply scanstring_length in E. pose proof (skip_ws_length r0) as Hw.
    destruct (skip_ws r0) as [|c t]; [reflexivity|]. simpl in Hw.
    destruct (c =? ":")%char; [|reflexivity].
    pose proof (skip_ws_length t).
    rewrite (IHo (skip_ws t)) by lia.
    destruct (scan_once m (skip_ws t)) as [[v' r']|] eqn:E'; [|reflexivity].
    apply (proj1 (scan_progress m)) in E'. pose proof (skip_ws_length r') as Hw'.
    destruct (skip_ws r') as [|c' t']; [reflexivity|]. simpl in Hw'.
    destruct (c' =? "}")%char; [reflexivity|].
    destruct (c' =? ",")%char; [|reflexivity].
    pose proof (skip_ws_length t') as Hw''.
    destruct (skip_ws t') as [|q t'']; [reflexivity|]. simpl in Hw''.
    destruct (q =? dquote)%char; [|reflexivity].
    apply IHm; lia.
Qed.

Lemma loads_fuel_independent (text : string) (fuel : nat) :
  2 * length (list_ascii_of_string text) + 2 ≤ fuel →
  decode fuel (list_ascii_of_string text) = Json.loads text.
Proof.
  intros Hfuel. unfold Json.loads, decode.
  pose proof (skip_ws_length (list_ascii_of_string text)) as Hw.
  by rewrite (proj1 (scan_stable fuel (2 * length (list_ascii_of_string text) + 2)))
    by lia.
Qed.

End Decoder.

(** ** Bands and images *)

Section Images.

Implicit Types (img ext : ee.Image) (n : string) (b : string * ee.Band).

Lemma select_elem img n :
  n ∈ ee.bandNames img → ∃ v, ee.select n img = Ok (n, v).
Proof.
  induction img as [|[m v] img IH]; simpl; intros H.
  - inversion H.
  - destruct (String.eqb n m) eqn:E.
    + apply String.eqb_eq in E. subst. eauto.
    + apply String.eqb_neq in E. apply elem_of_cons in H as [H|H]; [congruence|].
      auto.
Qed.

Lemma select_app img ext n b :
  ee.select n img = Ok b → ee.select n (img ++ ext) = Ok b.
Proof.
  induction img as [|[m v] img IH]; simpl; [discriminate|].
  destruct (String.eqb n m); auto.
Qed.

Lemma select_divide_image img n c v :
  ee.select n img = Ok (n, v) →
  ee.select n (ee.divide_image img c) = Ok (ee.divide_by (n, v) c).
Proof.
  induction img as [|[m w] img IH]; simpl; [discriminate|].
  destruct (String.eqb n m) eqn:E; [|exact IH].
  intros [= -> ->]. reflexivity.
Qed.

(** Adding bands never touches the bands already there. *)
Lemma addBands_app img ext :
  ∃ ext', ee.addBands img ext = img ++ ext' ∧ map snd ext' = map snd ext.
Proof.
  revert img. induction ext as [|b ext IH]; intros img.
  - exists []. simpl. by rewrite app_nil_r.
  - simpl. destruct (IH (ee.addBand img b)) as (ext' & -> & Hv).
    exists ((ee.fresh_name (ee.bandNames img) (fst b), snd b) :: ext').
    unfold ee.addBand. rewrite <- app_assoc. simpl. by rewrite Hv.
Qed.

Lemma fresh_name_free names n : n ∉ names → ee.fresh_name names n = n.
Proof. intros H. unfold ee.fresh_name. by rewrite bool_decide_eq_false_2. Qed.

End Images.

(** ** The index function *)

Section Indices.

Variables (image : ee.Image) (b4 b5 b6 b8 b11 : ee.Band).
Hypothesis H4 : ee.select "B4" image = Ok ("B4", b4).
Hypothesis H5 : ee.select "B5" image = Ok ("B5", b5).
Hypothesis H6 : ee.select "B6" image = Ok ("B6", b6).
Hypothesis H8 : ee.select "B8" image = Ok ("B8", b8).
Hypothesis H11 : ee.select "B11" image = Ok ("B11", b11).

(** On an image with the five raw bands the function returns, and what it
    adds is [index_bands] of the raw bands. *)
Lemma add_fai_mci_turbidity_eq :
  App2.add_fai_mci_turbidity image
  = Ok (ee.addBands image (index_bands b4 b5 b6 b8 b11)).
Proof using H4 H5 H6 H8 H11.
  unfold App2.add_fai_mci_turbidity, App2.normalize.
  rewrite (select_divide_image _ _ _ _ H4), (select_divide_image _ _ _ _ H5),
    (select_divide_image _ _ _ _ H6), (select_divide_image _ _ _ _ H8),
    (select_divide_image _ _ _ _ H11).
  reflexivity.
Qed.

Lemma add_fai_mci_turbidity_app3 :
  App3.add_fai_mci_turbidity image = App2.add_fai_mci_turbidity image.
Proof. reflexivity. Qed.

End Indices.


Ltac qc_eq := apply Qc_is_canon; vm_compute; reflexivity.

(** The integer quotient in the MCI text is 0, so the term it multiplies
    drops out of the band. *)
Lemma mci_term_vanishes (x y : Qc) : (x - y * Spec.qz (40 / 75))%Qc = x.
Proof.
  assert (H : Spec.qz (40 / 75) = Q2Qc 0) by qc_eq.
  rewrite H. ring.
Qed.






(** The first version of the page does not normalise: on the same image its
    FAI and MCI come out in raw units, 10000 times the values of the later
    versions. *)
Example app_py_indices_in_raw_units (p : ee.Pixel) :
  ∃ out, App.add_fai_mci sample_image = Ok out
    ∧ value_at "FAI" out p = Ok (Q2Qc (5710000 # 3150))
    ∧ value_at "MCI" out p = Ok (Q2Qc 500).
Proof.
  eexists. split; [reflexivity|]. unfold value_at. simpl.
  split; f_equal; qc_eq.
Qed.

Section Frame.

Implicit Types (img ext : ee.Image) (n : string).

Lemma select_own img :
  NoDup (ee.bandNames img) →
  ∀ n v, (n, v) ∈ img → ee.select n img = Ok (n, v).
Proof.
  induction img as [|[m w] img IH]; simpl; intros Hnd n v Hin.
  - inversion Hin.
  - apply NoDup_cons in Hnd as [Hm Hnd].
    apply elem_of_cons in Hin as [[= -> ->]|Hin].
    + by rewrite String.eqb_refl.
    + destruct (String.eqb n m) eqn:E; [|by apply IH].
      apply String.eqb_eq in E. subst. exfalso. apply Hm.
      apply list_elem_of_fmap. by exists (m, v).
Qed.

Lemma select_all_own (part whole : ee.Image) :
  (∀ n v, (n, v) ∈ part → ee.select n whole = Ok (n, v)) →
  ee.select_all (ee.bandNames part) whole = Ok part.
Proof.
  induction part as [|[m w] part IH]; simpl; intros H; [reflexivity|].
  rewrite (H m w) by apply list_elem_of_here. simpl.
  rewrite IH; [reflexivity|]. intros n v Hin. apply H.
  by apply list_elem_of_further.
Qed.

(** Selecting the original names from an extended image gives the original
    image back. *)
Lemma select_all_app img ext :
  NoDup (ee.bandNames img) →
  ee.select_all (ee.bandNames img) (img ++ ext) = Ok img.
Proof.
  intros Hnd. apply select_all_own. intros n v Hin.
  apply select_app. by apply select_own.
Qed.

Lemma bandNames_app img ext :
  ee.bandNames (img ++ ext) = ee.bandNames img ++ ee.bandNames ext.
Proof. apply map_app. Qed.

(** The names of the three bands added to an image that has none of them. *)
Lemma addBands_derived_fresh img (f m t : ee.Band) :
  (∀ d, d ∈ Spec.derived → d ∉ ee.bandNames img) →
  ee.addBands img [("FAI", f); ("MCI", m); ("Turbidity", t)]
  = img ++ [("FAI", f); ("MCI", m); ("Turbidity", t)].
Proof.
  intros Hfree. unfold ee.addBands, ee.addBand. simpl.
  assert (HF : "FAI" ∉ ee.bandNames img) by (apply Hfree; set_solver).
  assert (HM : "MCI" ∉ ee.bandNames img) by (apply Hfree; set_solver).
  assert (HT : "Turbidity" ∉ ee.bandNames img) by (apply Hfree; set_solver).
  rewrite (fresh_name_free _ _ HF).
  rewrite !bandNames_app. simpl.
  rewrite (fresh_name_free _ "MCI").
  2:{ rewrite elem_of_app, list_elem_of_singleton. intros [?|?]; [done|discriminate]. }
  rewrite (fresh_name_free _ "Turbidity").
  2:{ rewrite !elem_of_app, !list_elem_of_singleton.
      intros [[?|?]|?]; [done|discriminate|discriminate]. }
  by rewrite <- !app_assoc.
Qed.

End Frame.

Ltac in_list :=
  repeat first [apply list_elem_of_here | apply list_elem_of_further].

Lemma raw_bands_selected (image : ee.Image) :
  Spec.raw ⊆ ee.bandNames image →
  ∃ b4 b5 b6 b8 b11,
    ee.select "B4" image = Ok ("B4", b4) ∧ ee.select "B5" image = Ok ("B5", b5)
    ∧ ee.select "B6" image = Ok ("B6", b6) ∧ ee.select "B8" image = Ok ("B8", b8)
    ∧ ee.select "B11" image = Ok ("B11", b11).
Proof.
  intros H.
  destruct (select_elem image "B4") as [b4 E4]; [apply H; in_list|].
  destruct (select_elem image "B5") as [b5 E5]; [apply H; in_list|].
  destruct (select_elem image "B6") as [b6 E6]; [apply H; in_list|].
  destruct (select_elem image "B8") as [b8 E8]; [apply H; in_list|].
  destruct (select_elem image "B11") as [b11 E11]; [apply H; in_list|].
  exists b4, b5, b6, b8, b11. auto.
Qed.

(** C8, as stated, fails on an image that already has a band named FAI: the
    new band is added as FAI_1, a name that is neither an original band nor
    one of FAI, MCI, Turbidity. *)
Lemma C8_counterexample_band_set :
  match App2.add_fai_mci_turbidity with_fai with
  | Ok out =>
      ee.bandNames out
      = ["B4"; "B8"; "B11"; "B5"; "B6"; "FAI"; "FAI_1"; "MCI"; "Turbidity"]
      ∧ "FAI_1" ∉ ee.bandNames with_fai ++ Spec.derived
  | Raise _ => False
  end.
Proof.
  vm_compute. split; [reflexivity|].
  intros H. repeat (apply elem_of_cons in H as [H|H]; [discriminate H|]).
  inversion H.
Qed.

(** C8, amended.  For every image with distinct band names that carries the
    five raw bands, the index function returns an image made of the original
    bands, unchanged and in their order, followed by three added bands:
    every original band selects to the same values, and selecting the
    original names gives the original image back.  When the image has no
    band named FAI, MCI or Turbidity, the band names of the result are the
    original names followed by these three. *)
Theorem C8_original_bands_kept (image : ee.Image) :
  NoDup (ee.bandNames image) →
  Spec.raw ⊆ ee.bandNames image →
  ∃ out ext,
    App2.add_fai_mci_turbidity image = Ok out
    ∧ App3.add_fai_mci_turbidity image = Ok out
    ∧ out = image ++ ext ∧ length ext = 3%nat
    ∧ (∀ n b, ee.select n image = Ok b → ee.select n out = Ok b)
    ∧ ee.select_all (ee.bandNames image) out = Ok image
    ∧ ((∀ d, d ∈ Spec.derived → d ∉ ee.bandNames image) →
       ee.bandNames out = ee.bandNames image ++ Spec.derived).
Proof.
  intros Hnd Hraw.
  destruct (raw_bands_selected image Hraw)
    as (b4 & b5 & b6 & b8 & b11 & E4 & E5 & E6 & E8 & E11).
  pose proof (add_fai_mci_turbidity_eq _ _ _ _ _ _ E4 E5 E6 E8 E11) as Hrun.
  destruct (addBands_app image (index_bands b4 b5 b6 b8 b11)) as (ext & Hout & Hv).
  exists (image ++ ext), ext. rewrite <- Hout.
  split; [exact Hrun|]. split; [by rewrite add_fai_mci_turbidity_app3|].
  split; [reflexivity|].
  split; [by rewrite <- (length_map snd), Hv|].
  split; [intros n b Hb; rewrite Hout; by apply select_app|].
  split; [rewrite Hout; by apply select_all_app|].
  intros Hfree. unfold index_bands. rewrite addBands_derived_fresh by exact Hfree.
  by rewrite bandNames_app.
Qed.

(** [C8_original_bands_kept] at the image of the worked example. *)
Lemma C8_witness :
  ∃ out ext,
    App2.add_fai_mci_turbidity sample_image = Ok out
    ∧ App3.add_fai_mci_turbidity sample_image = Ok out
    ∧ out = sample_image ++ ext ∧ length ext = 3%nat
    ∧ (∀ n b, ee.select n sample_image = Ok b → ee.select n out = Ok b)
    ∧ ee.select_all (ee.bandNames sample_image) out = Ok sample_image
    ∧ ((∀ d, d ∈ Spec.derived → d ∉ ee.bandNames sample_image) →
       ee.bandNames out = ee.bandNames sample_image ++ Spec.derived).
Proof.
  apply (C8_original_bands_kept sample_image).
  - apply (bool_decide_unpack _). vm_compute. exact I.
  - apply (bool_decide_unpack _). vm_compute. exact I.
Defined.

Section Recompute.

Implicit Types (img ext : ee.Image) (b : string * ee.Band).

Lemma addBand_keeps img b n :
  n ∈ ee.bandNames img → n ∈ ee.bandNames (ee.addBand img b).
Proof. intros H. unfold ee.addBand. rewrite bandNames_app, elem_of_app. by left. Qed.

Lemma addBands_keeps ext : ∀ img n,
  n ∈ ee.bandNames img → n ∈ ee.bandNames (ee.addBands img ext).
Proof.
  induction ext as [|b ext IH]; intros img n H; simpl; [exact H|].
  apply IH. by apply addBand_keeps.
Qed.

Lemma addBand_has_name img b : fst b ∈ ee.bandNames (ee.addBand img b).
Proof.
  unfold ee.addBand. rewrite bandNames_app, elem_of_app.
  destruct (decide (fst b ∈ ee.bandNames img)) as [Hin|Hout]; [by left|].
  right. simpl. rewrite fresh_name_free by exact Hout. apply list_elem_of_here.
Qed.

(** After [addBands] every name of the added bands is a band of the result:
    the new band, or the band that had the name before. *)
Lemma addBands_has_names ext : ∀ img n v,
  (n, v) ∈ ext → n ∈ ee.bandNames (ee.addBands img ext).
Proof.
  induction ext as [|c ext IH]; intros img n v Hin; [inversion Hin|].
  simpl. apply elem_of_cons in Hin as [<-|Hin].
  - apply addBands_keeps, (addBand_has_name img (n, v)).
  - by apply (IH _ _ v).
Qed.

End Recompute.

(** C9.  Applying the index function to its own result computes the same
    three bands again (same values at every pixel), as long as the raw bands
    are those of the first run, which they are; and each of the bands FAI,
    MCI, Turbidity of the second result is the band of that name of the
    first result. *)
Theorem C9_recomputation_gives_same_values (image : ee.Image) :
  Spec.raw ⊆ ee.bandNames image →
  ∃ out1 out2 added1 added2,
    App2.add_fai_mci_turbidity image = Ok out1
    ∧ App2.add_fai_mci_turbidity out1 = Ok out2
    ∧ App3.add_fai_mci_turbidity image = Ok out1
    ∧ App3.add_fai_mci_turbidity out1 = Ok out2
    ∧ out1 = image ++ added1 ∧ out2 = out1 ++ added2
    ∧ length added1 = 3%nat
    ∧ map snd added2 = map snd added1
    ∧ ∀ d, d ∈ Spec.derived →
        ∃ b, ee.select d out1 = Ok b ∧ ee.select d out2 = Ok b.
Proof.
  intros Hraw.
  destruct (raw_bands_selected image Hraw)
    as (b4 & b5 & b6 & b8 & b11 & E4 & E5 & E6 & E8 & E11).
  set (added := index_bands b4 b5 b6 b8 b11).
  pose proof (add_fai_mci_turbidity_eq _ _ _ _ _ _ E4 E5 E6 E8 E11) as Hrun1.
  destruct (addBands_app image added) as (ext1 & Hout1 & Hv1).
  set (out1 := ee.addBands image added) in *.
  assert (Hsel : ∀ n b, ee.select n image = Ok b → ee.select n out1 = Ok b).
  { intros n b Hb. rewrite Hout1. by apply select_app. }
  pose proof (add_fai_mci_turbidity_eq _ _ _ _ _ _
                (Hsel _ _ E4) (Hsel _ _ E5) (Hsel _ _ E6) (Hsel _ _ E8) (Hsel _ _ E11))
    as Hrun2.
  destruct (addBands_app out1 added) as (ext2 & Hout2 & Hv2).
  exists out1, (ee.addBands out1 added), ext1, ext2.
  split; [exact Hrun1|]. split; [exact Hrun2|].
  split; [by rewrite add_fai_mci_turbidity_app3|].
  split; [by rewrite add_fai_mci_turbidity_app3|].
  split; [exact Hout1|]. split; [exact Hout2|].
  split; [by rewrite <- (length_map snd), Hv1|].
  split; [by rewrite Hv1, Hv2|].
  intros d Hd.
  assert (Hin : d ∈ ee.bandNames out1).
  { unfold out1. unfold Spec.derived in Hd.
    repeat (apply elem_of_cons in Hd as [->|Hd];
            [eapply addBands_has_names; unfold added, index_bands; in_list|]).
    inversion Hd. }
  destruct (select_elem out1 d Hin) as [v Hv].
  exists (d, v). split; [exact Hv|]. rewrite Hout2. by apply select_app.
Qed.

(** [C9_recomputation_gives_same_values] at the image of the worked example. *)
Lemma C9_witness :
  ∃ out1 out2 added1 added2,
    App2.add_fai_mci_turbidity sample_image = Ok out1
    ∧ App2.add_fai_mci_turbidity out1 = Ok out2
    ∧ App3.add_fai_mci_turbidity sample_image = Ok out1
    ∧ App3.add_fai_mci_turbidity out1 = Ok out2
    ∧ out1 = sample_image ++ added1 ∧ out2 = out1 ++ added2
    ∧ length added1 = 3%nat
    ∧ map snd added2 = map snd added1
    ∧ ∀ d, d ∈ Spec.derived →
        ∃ b, ee.select d out1 = Ok b ∧ ee.select d out2 = Ok b.
Proof.
  apply (C9_recomputation_gives_same_values sample_image).
  apply (bool_decide_unpack _). vm_compute. exact I.
Defined.

(** What the second run leaves in the image of the worked example: the bands
    of the first run under their names, the recomputed ones under suffixed
    names. *)
Example recomputed_band_names :
  match App2.add_fai_mci_turbidity sample_image with
  | Ok out1 =>
      match App2.add_fai_mci_turbidity out1 with
      | Ok out2 =>
          ee.bandNames out2
          = ["B4"; "B8"; "B11"; "B5"; "B6"; "FAI"; "MCI"; "Turbidity";
             "FAI_1"; "MCI_1"; "Turbidity_1"]
      | Raise _ => False
      end
  | Raise _ => False
  end.
Proof. vm_compute. reflexivity. Qed.

(** ** Alert evaluation *)

Lemma means_Some (service : ee.Service) (img : ee.Composite) (aoi : ee.Geometry)
    (k : string) (v : Qc) :
  means service img aoi k = Some v ↔ service img k aoi = Ok (Some v).
Proof.
  unfold means. destruct (service img k aoi) as [[w|]|e]; split; congruence.
Qed.

Section Alerts.

Variables (service : ee.Service) (mean_img : ee.Composite) (aoi : ee.Geometry).
Variable thresholds : gmap string Qc.

Let agg (k : string) : option Qc := means service mean_img aoi k.

(** The loop of [app3.py] is the loop of [app2.py]. *)
Lemma metrics_loop_app3 : App3.metrics_loop = App2.metrics_loop.
Proof. reflexivity. Qed.

(** One turn of the loop when the mean and the threshold are there. *)
Lemma metrics_loop_step k keys alerts v t :
  agg k = Some v → thresholds !! k = Some t →
  App2.metrics_loop service (k :: keys) mean_img aoi thresholds alerts
  = let rest := App2.metrics_loop service keys mean_img aoi thresholds
                  (if bool_decide (t < v)%Qc then alerts ++ [k] else alerts) in
    (mean_line agg k :: fst rest, snd rest).
Proof.
  intros Hv Ht. simpl. unfold App2.compute_mean_value, mean_line.
  rewrite Hv. apply means_Some in Hv. rewrite Hv.
  unfold App2.lookup_threshold. rewrite Ht. simpl.
  by destruct (App2.metrics_loop _ _ _ _ _ _).
Qed.

(** The turn at which a threshold is missing. *)
Lemma metrics_loop_missing k keys alerts v :
  agg k = Some v → thresholds !! k = None →
  App2.metrics_loop service (k :: keys) mean_img aoi thresholds alerts
  = ([mean_line agg k], Raise (KeyError k)).
Proof.
  intros Hv Ht. simpl. unfold App2.compute_mean_value, mean_line.
  rewrite Hv. apply means_Some in Hv. rewrite Hv.
  unfold App2.lookup_threshold. rewrite Ht. reflexivity.
Qed.

Lemma metrics_loop_ok keys : ∀ alerts,
  (∀ k, k ∈ keys → is_Some (agg k) ∧ is_Some (thresholds !! k)) →
  App2.metrics_loop service keys mean_img aoi thresholds alerts
  = (map (mean_line agg) keys,
     Ok (alerts ++ List.filter (exceeds agg thresholds) keys)).
Proof.
  induction keys as [|k keys IH]; intros alerts Hall.
  - simpl. by rewrite app_nil_r.
  - destruct (Hall k) as [[v Hv] [t Ht]]; [apply list_elem_of_here|].
    rewrite (metrics_loop_step _ _ _ _ _ Hv Ht). cbv zeta.
    rewrite IH by (intros; apply Hall; by apply list_elem_of_further).
    simpl. unfold exceeds at 2. rewrite Hv, Ht.
    destruct (bool_decide (t < v)%Qc); simpl; [by rewrite <- app_assoc|done].
Qed.

(** When a threshold is missing the loop stops with [KeyError] at the first
    index that has none. *)
Lemma metrics_loop_fails keys : ∀ alerts,
  (∀ k, k ∈ keys → is_Some (agg k)) →
  (∃ k, k ∈ keys ∧ thresholds !! k = None) →
  ∃ k, k ∈ keys ∧ thresholds !! k = None
       ∧ snd (App2.metrics_loop service keys mean_img aoi thresholds alerts)
         = Raise (KeyError k).
Proof.
  induction keys as [|k keys IH]; intros alerts Hagg (k0 & Hin & Hnone).
  - inversion Hin.
  - destruct (Hagg k) as [v Hv]; [apply list_elem_of_here|].
    destruct (thresholds !! k) as [t|] eqn:Ht.
    + apply elem_of_cons in Hin as [->|Hin]; [congruence|].
      destruct (IH (if bool_decide (t < v)%Qc then alerts ++ [k] else alerts))
        as (k1 & Hin1 & Hnone1 & Hrun).
      { intros; apply Hagg; by apply list_elem_of_further. }
      { by exists k0. }
      exists k1. split; [by apply list_elem_of_further|]. split; [done|].
      by rewrite (metrics_loop_step _ _ _ _ _ Hv Ht).
    + exists k. split; [apply list_elem_of_here|]. split; [done|].
      by rewrite (metrics_loop_missing _ _ _ _ Hv Ht).
Qed.

Lemma exceeds_spec k :
  exceeds agg thresholds k = true
  ↔ ∃ v t, agg k = Some v ∧ thresholds !! k = Some t ∧ (t < v)%Qc.
Proof.
  unfold exceeds. split.
  - destruct (agg k) as [v|]; [|discriminate].
    destruct (thresholds !! k) as [t|]; [|discriminate].
    intros H. exists v, t. repeat split. by apply bool_decide_eq_true in H.
  - intros (v & t & -> & -> & H). by apply bool_decide_eq_true.
Qed.

End Alerts.

Lemma filter_sublist {A} (f : A → bool) (l : list A) : sublist (List.filter f l) l.
Proof.
  induction l as [|x l IH]; simpl; [constructor|].
  destruct (f x); by constructor.
Qed.

Section Render.

Variables (service : ee.Service) (mean_img : ee.Composite) (aoi : ee.Geometry).
Variable thresholds : gmap string Qc.

Let agg (k : string) : option Qc := means service mean_img aoi k.
Let header : st_call := markdown [Lit "## Water Quality Summary"].

Lemma render2_ok selected :
  (∀ k, k ∈ selected → is_Some (agg k) ∧ is_Some (thresholds !! k)) →
  App2.render_sidebar_metrics service selected mean_img aoi thresholds
  = (header :: map (mean_line agg) selected
       ++ [match List.filter (exceeds agg thresholds) selected with
           | [] => App2.safe_box
           | a :: l => App2.alert_box (a :: l)
           end],
     Ok tt).
Proof.
  intros Hall. unfold App2.render_sidebar_metrics.
  rewrite (metrics_loop_ok _ _ _ _ _ [] Hall). simpl.
  by destruct (List.filter _ _).
Qed.

Lemma render3_ok selected :
  (∀ k, k ∈ selected → is_Some (agg k) ∧ is_Some (thresholds !! k)) →
  App3.render_sidebar_metrics service selected mean_img aoi thresholds
  = (header :: map (mean_line agg) selected
       ++ [match List.filter (exceeds agg thresholds) selected with
           | [] => App3.safe_box
           | a :: l => App3.alert_box (a :: l)
           end],
     Ok tt).
Proof.
  intros Hall. unfold App3.render_sidebar_metrics.
  change App3.metrics_loop with App2.metrics_loop.
  rewrite (metrics_loop_ok _ _ _ _ _ [] Hall). simpl.
  by destruct (List.filter _ _).
Qed.

Lemma render2_fails selected k :
  snd (App2.metrics_loop service selected mean_img aoi thresholds [])
  = Raise (KeyError k) →
  snd (App2.render_sidebar_metrics service selected mean_img aoi thresholds)
  = Raise (KeyError k)
  ∧ snd (App3.render_sidebar_metrics service selected mean_img aoi thresholds)
    = Raise (KeyError k).
Proof.
  intros H. unfold App2.render_sidebar_metrics, App3.render_sidebar_metrics.
  change App3.metrics_loop with App2.metrics_loop.
  destruct (App2.metrics_loop _ _ _ _ _ _) as [out r]. simpl in H. subst r.
  by split.
Qed.

End Render.

(** C3.  Given the mean of every listed index and a threshold for each,
    [render_sidebar_metrics] marks an index exactly when its mean is strictly
    above its threshold: after the heading and one line for the mean of each
    listed index, it shows the alert box naming the marked indices, in the
    order in which they were listed, or the safe box when none is marked.  An
    index whose mean equals its threshold is not marked.  The list the loop
    builds is that list of marked indices.  With means FAI 0.06, MCI 0.01,
    Turbidity 1.8 and the thresholds of the page the list is exactly [FAI]
    and the alert box names FAI alone. *)
Theorem C3_alerts_strictly_above_threshold
    (service : ee.Service) (mean_img : ee.Composite) (aoi : ee.Geometry)
    (thresholds : gmap string Qc) (selected : list string) :
  (∀ k, k ∈ selected →
        is_Some (means service mean_img aoi k) ∧ is_Some (thresholds !! k)) →
  let agg := means service mean_img aoi in
  let alerts := List.filter (exceeds agg thresholds) selected in
  let lines :=
    markdown [Lit "## Water Quality Summary"] :: map (mean_line agg) selected in
  App2.render_sidebar_metrics service selected mean_img aoi thresholds
  = (lines ++ [match alerts with
               | [] => App2.safe_box
               | _ :: _ => App2.alert_box alerts
               end],
     Ok tt)
  ∧ App3.render_sidebar_metrics service selected mean_img aoi thresholds
    = (lines ++ [match alerts with
                 | [] => App3.safe_box
                 | _ :: _ => App3.alert_box alerts
                 end],
       Ok tt)
  ∧ snd (App2.metrics_loop service selected mean_img aoi thresholds []) = Ok alerts
  ∧ snd (App3.metrics_loop service selected mean_img aoi thresholds []) = Ok alerts
  ∧ (∀ k, k ∈ alerts ↔
          k ∈ selected
          ∧ ∃ v t, agg k = Some v ∧ thresholds !! k = Some t ∧ (t < v)%Qc)
  ∧ (∀ k v, k ∈ selected → agg k = Some v → thresholds !! k = Some v → k ∉ alerts)
  ∧ sublist alerts selected
  ∧ snd (App2.metrics_loop example_service ["FAI"; "MCI"; "Turbidity"]
           mean_img aoi App2.thresholds []) = Ok ["FAI"]
  ∧ snd (App3.metrics_loop example_service ["FAI"; "MCI"; "Turbidity"]
           mean_img aoi App3.thresh []) = Ok ["FAI"]
  ∧ last (fst (App2.render_sidebar_metrics example_service
                 ["FAI"; "MCI"; "Turbidity"] mean_img aoi App2.thresholds))
    = Some (App2.alert_box ["FAI"])
  ∧ last (fst (App3.render_sidebar_metrics example_service
                 ["FAI"; "MCI"; "Turbidity"] mean_img aoi App3.thresh))
    = Some (App3.alert_box ["FAI"]).
Proof.
  intros Hall agg alerts lines.
  split.
  { rewrite (render2_ok _ _ _ _ _ Hall). subst lines alerts agg.
    by destruct (List.filter _ selected). }
  split.
  { rewrite (render3_ok _ _ _ _ _ Hall). subst lines alerts agg.
    by destruct (List.filter _ selected). }
  split; [by rewrite (metrics_loop_ok _ _ _ _ _ [] Hall)|].
  split; [by rewrite metrics_loop_app3, (metrics_loop_ok _ _ _ _ _ [] Hall)|].
  split.
  { intros k. unfold alerts. split.
    - intros H. apply list_elem_of_In, filter_In in H as [Hin Hex].
      split; [by apply list_elem_of_In|].
      by apply (exceeds_spec service mean_img aoi thresholds k) in Hex.
    - intros [Hin Hex]. apply list_elem_of_In, filter_In.
      split; [by apply list_elem_of_In|].
      by apply (exceeds_spec service mean_img aoi thresholds k). }
  split.
  { intros k v Hin Hv Ht. unfold alerts.
    rewrite list_elem_of_In, filter_In. intros [_ Hex].
    apply (exceeds_spec service mean_img aoi thresholds k) in Hex
      as (v' & t' & Hv' & Ht' & Hlt).
    fold (agg k) in Hv'. rewrite Hv in Hv'. rewrite Ht in Ht'.
    injection Hv' as <-. injection Ht' as <-. by apply Qclt_not_eq in Hlt. }
  split; [apply filter_sublist|].
  repeat split; vm_compute; reflexivity.
Qed.

(** [C3_alerts_strictly_above_threshold] at the example of the specification. *)
Lemma C3_witness :
  App2.render_sidebar_metrics example_service ["FAI"; "MCI"; "Turbidity"]
    (App2.compute_mean_image App2.add_fai_mci_turbidity
       (App2.load_sentinel_collection App2.get_default_geometry 2020 2024))
    App2.get_default_geometry App2.thresholds
  = ((markdown [Lit "## Water Quality Summary"]
      :: map (mean_line
                (means example_service
                   (App2.compute_mean_image App2.add_fai_mci_turbidity
                      (App2.load_sentinel_collection App2.get_default_geometry
                         2020 2024))
                   App2.get_default_geometry))
           ["FAI"; "MCI"; "Turbidity"])
     ++ [match List.filter
                 (exceeds
                    (means example_service
                       (App2.compute_mean_image App2.add_fai_mci_turbidity
                          (App2.load_sentinel_collection App2.get_default_geometry
                             2020 2024))
                       App2.get_default_geometry)
                    App2.thresholds)
                 ["FAI"; "MCI"; "Turbidity"] with
         | [] => App2.safe_box
         | _ :: _ =>
             App2.alert_box
               (List.filter
                  (exceeds
                     (means example_service
                        (App2.compute_mean_image App2.add_fai_mci_turbidity
                           (App2.load_sentinel_collection App2.get_default_geometry
                              2020 2024))
                        App2.get_default_geometry)
                     App2.thresholds)
                  ["FAI"; "MCI"; "Turbidity"])
         end],
     Ok tt).
Proof.
  refine (proj1 (C3_alerts_strictly_above_threshold example_service _ _
                   App2.thresholds ["FAI"; "MCI"; "Turbidity"] _)).
  apply (Forall_forall (λ k, is_Some (means example_service _ _ k)
                             ∧ is_Some (App2.thresholds !! k))).
  repeat constructor; vm_compute; eauto.
Defined.

(** C7.  When the mean of every listed index is there: if some listed index
    has no threshold, [render_sidebar_metrics] stops with [KeyError] on such
    an index (the first one) instead of passing it over; and if every listed
    index has a threshold it returns without raising. *)
Theorem C7_missing_threshold_raises
    (service : ee.Service) (mean_img : ee.Composite) (aoi : ee.Geometry)
    (thresholds : gmap string Qc) (selected : list string) :
  (∀ k, k ∈ selected → is_Some (means service mean_img aoi k)) →
  ((∃ k, k ∈ selected ∧ thresholds !! k = None) →
   ∃ k, k ∈ selected ∧ thresholds !! k = None
        ∧ snd (App2.render_sidebar_metrics service selected mean_img aoi thresholds)
          = Raise (KeyError k)
        ∧ snd (App3.render_sidebar_metrics service selected mean_img aoi thresholds)
          = Raise (KeyError k))
  ∧ ((∀ k, k ∈ selected → is_Some (thresholds !! k)) →
     snd (App2.render_sidebar_metrics service selected mean_img aoi thresholds) = Ok tt
     ∧ snd (App3.render_sidebar_metrics service selected mean_img aoi thresholds) = Ok tt).
Proof.
  intros Hagg. split.
  - intros Hmissing.
    destruct (metrics_loop_fails service mean_img aoi thresholds selected [] Hagg Hmissing)
      as (k & Hin & Hnone & Hrun).
    exists k. split; [done|]. split; [done|].
    by apply render2_fails.
  - intros Hth.
    assert (Hall : ∀ k, k ∈ selected →
                        is_Some (means service mean_img aoi k) ∧ is_Some (thresholds !! k))
      by (intros k Hk; split; auto).
    by rewrite (render2_ok _ _ _ _ _ Hall), (render3_ok _ _ _ _ _ Hall).
Qed.

(** [C7_missing_threshold_raises] with the means of the example and a
    threshold table that lacks Turbidity. *)
Lemma C7_witness :
  ∃ k, k ∈ ["FAI"; "MCI"; "Turbidity"]
       ∧ (<["FAI" := Q2Qc 0.05]> (<["MCI" := Q2Qc 0.02]> ∅) : gmap string Qc) !! k = None
       ∧ snd (App2.render_sidebar_metrics example_service ["FAI"; "MCI"; "Turbidity"]
                (App2.compute_mean_image App2.add_fai_mci_turbidity
                   (App2.load_sentinel_collection App2.get_default_geometry 2020 2024))
                App2.get_default_geometry
                (<["FAI" := Q2Qc 0.05]> (<["MCI" := Q2Qc 0.02]> ∅)))
         = Raise (KeyError k)
       ∧ snd (App3.render_sidebar_metrics example_service ["FAI"; "MCI"; "Turbidity"]
                (App2.compute_mean_image App2.add_fai_mci_turbidity
                   (App2.load_sentinel_collection App2.get_default_geometry 2020 2024))
                App2.get_default_geometry
                (<["FAI" := Q2Qc 0.05]> (<["MCI" := Q2Qc 0.02]> ∅)))
         = Raise (KeyError k).
Proof.
  refine (proj1 (C7_missing_threshold_raises example_service _ _ _
                   ["FAI"; "MCI"; "Turbidity"] _) _).
  - apply (Forall_forall (λ k, is_Some (means example_service _ _ k))).
    repeat constructor; vm_compute; eauto.
  - exists "Turbidity". split; [in_list|]. vm_compute. reflexivity.
Defined.

(** The loop looks at the service and at the thresholds only for the indices
    it is given. *)
Lemma metrics_loop_ext (service service' : ee.Service) (mean_img : ee.Composite)
    (aoi : ee.Geometry) (th th' : gmap string Qc) (keys : list string) :
  (∀ k, k ∈ keys →
        service mean_img k aoi = service' mean_img k aoi ∧ th !! k = th' !! k) →
  ∀ alerts,
    App2.metrics_loop service keys mean_img aoi th alerts
    = App2.metrics_loop service' keys mean_img aoi th' alerts.
Proof.
  induction keys as [|k keys IH]; intros Hsame alerts; [reflexivity|].
  destruct (Hsame k) as [Hs Ht]; [apply list_elem_of_here|].
  simpl. unfold App2.compute_mean_value, App2.lookup_threshold.
  rewrite <- Hs, <- Ht.
  destruct (service mean_img k aoi) as [[v|]|e]; [|reflexivity|reflexivity].
  destruct (th !! k) as [t|]; [|reflexivity].
  simpl. rewrite IH; [reflexivity|].
  intros; apply Hsame; by apply list_elem_of_further.
Qed.

(** C10.  [main] passes to [render_sidebar_metrics] only the layers whose box
    is ticked.  The page is therefore the same for two services that agree on
    the ticked layers, whatever they would answer for the others, and the
    same for two threshold tables that agree on the ticked layers; and with
    no box ticked the summary is the line that all metrics are within safe
    limits, whatever the index values are.  Likewise in [app3.py], once the
    area of interest has been resolved. *)
Theorem C10_alerts_only_for_selected_layers
    (ui : App2.Inputs) (ui3 : App3.Inputs) (net : requests.Transport)
    (service service' : ee.Service) :
  (∀ img k aoi, App2.checkbox ui k = true → service img k aoi = service' img k aoi) →
  (∀ img k aoi, App3.checkbox ui3 k = true → service img k aoi = service' img k aoi) →
  App2.main ui service = App2.main ui service'
  ∧ App3.main ui3 net service = App3.main ui3 net service'
  ∧ (∀ img aoi (th th' : gmap string Qc),
       (∀ k, App2.checkbox ui k = true → th !! k = th' !! k) →
       let selected := List.filter (App2.checkbox ui) ["FAI"; "MCI"; "Turbidity"] in
       App2.render_sidebar_metrics service selected img aoi th
       = App2.render_sidebar_metrics service selected img aoi th')
  ∧ ((∀ k, App2.checkbox ui k = false) →
     ∃ aoi pre,
       App2.get_custom_geometry (App2.choice ui) (App2.geojson_str ui) = (pre, Ok aoi)
       ∧ App2.main ui service
         = (pre ++ [ markdown [Lit "## Select Layers"];
                     markdown [Lit "## Water Quality Summary"];
                     App2.safe_box ],
            Ok tt))
  ∧ ((∀ k, App3.checkbox ui3 k = false) →
     ∀ aoi pre,
       App3.get_custom_geometry net (App3.option ui3) (App3.geojson_str ui3)
         (App3.pick ui3) (App3.appid ui3) = (pre, Ok aoi) →
       App3.main ui3 net service
       = (pre ++ [ markdown [Lit "## Select Layers"];
                   markdown [Lit "## Water Quality Summary"];
                   App3.safe_box ],
          Ok tt)).
Proof.
  intros Hsame Hsame3.
  assert (Hin : ∀ (f : string → bool) k l, k ∈ List.filter f l → f k = true).
  { intros f k l H. by apply list_elem_of_In, filter_In in H as [_ H]. }
  split; [|split; [|split; [|split]]].
  - unfold App2.main.
    destruct (App2.get_custom_geometry _ _) as [pre [aoi|e]]; [|reflexivity].
    simpl. unfold App2.render_sidebar_metrics.
    rewrite (metrics_loop_ext service service' _ _ App2.thresholds App2.thresholds);
      [reflexivity|].
    intros k Hk. split; [|reflexivity]. apply Hsame.
    exact (Hin (App2.checkbox ui) k ["FAI"; "MCI"; "Turbidity"] Hk).
  - unfold App3.main.
    destruct (App3.get_custom_geometry _ _ _ _ _) as [pre [aoi|e]]; [|reflexivity].
    simpl. unfold App3.render_sidebar_metrics.
    change App3.metrics_loop with App2.metrics_loop.
    rewrite (metrics_loop_ext service service' _ _ App3.thresh App3.thresh);
      [reflexivity|].
    intros k Hk. split; [|reflexivity]. apply Hsame3.
    exact (Hin (App3.checkbox ui3) k ["FAI"; "MCI"; "Turbidity"] Hk).
  - intros img aoi th th' Hth selected. unfold App2.render_sidebar_metrics.
    rewrite (metrics_loop_ext service service img aoi th th'); [reflexivity|].
    intros k Hk. split; [reflexivity|]. apply Hth.
    exact (Hin (App2.checkbox ui) k ["FAI"; "MCI"; "Turbidity"] Hk).
  - intros Hnone. unfold App2.main.
    assert (Hg : ∃ aoi pre,
               App2.get_custom_geometry (App2.choice ui) (App2.geojson_str ui)
               = (pre, Ok aoi)).
    { unfold App2.get_custom_geometry.
      destruct (String.eqb _ _); [|by eexists _, _].
      destruct (negb _); [|by eexists _, _].
      destruct (App2.parse_geojson _); by eexists _, _. }
    destruct Hg as (aoi & pre & Hg). exists aoi, pre. split; [exact Hg|].
    rewrite Hg. simpl. rewrite !Hnone. reflexivity.
  - intros Hnone aoi pre Hg. unfold App3.main. rewrite Hg. simpl.
    rewrite !Hnone. reflexivity.
Qed.

(** [C10_alerts_only_for_selected_layers] with no box ticked, against a
    service that answers nothing at all. *)
Lemma C10_witness :
  App2.main ui_none example_service = App2.main ui_none (λ _ _ _, Ok None).
Proof.
  refine (proj1 (C10_alerts_only_for_selected_layers ui_none ui3_none no_network
                   example_service (λ _ _ _, Ok None) _ _)).
  - intros img k aoi H. simpl in H. discriminate H.
  - intros img k aoi H. simpl in H. discriminate H.
Defined.

(** ** The imagery query *)

(** C2, as stated, fails: it lets the caller set the cloud ceiling, but the
    function takes none and always filters below 10.  A caller who wants a
    ceiling of 5 still gets the image that is 7 % cloudy. *)
Lemma C2_counterexample_fixed_ceiling :
  ee.admits (App2.load_sentinel_collection App2.get_default_geometry 2020 2024)
    image_7pct = true
  ∧ ee.admits (App3.load_sentinel_collection App3.get_default_geometry 2020 2024)
      image_7pct = true
  ∧ cloud image_7pct = Some (Q2Qc 7)
  ∧ ¬ (Q2Qc 7 < Q2Qc 5)%Qc.
Proof.
  split; [vm_compute; reflexivity|]. split; [vm_compute; reflexivity|].
  split; [vm_compute; reflexivity|]. unfold Qclt. vm_compute. discriminate.
Qed.

Lemma passes_cloud_filter (v : Qc) (im : ee.ImageInfo) :
  ee.passes (ee.Lt "CLOUDY_PIXEL_PERCENTAGE" v) im = true
  ↔ ∃ x, cloud im = Some x ∧ (x < v)%Qc.
Proof.
  unfold cloud. simpl. destruct (ee.properties im !! _) as [x|].
  - rewrite bool_decide_eq_true. split; [by exists x|]. by intros (? & [= <-] & ?).
  - split; [discriminate|]. by intros (? & [=] & _).
Qed.

(** C2, amended.  For every area of interest and every pair of years, the
    query asks for the collection filtered to the area, with 1 January of the
    start year and 31 December of the end year as the two bounds of the date
    filter, and with the cloud percentage strictly below 10, a constant of
    the code.  An admitted image starts on or after 1 January of the start
    year and is less than 10 % cloudy.  For 2020 and 2024 the bounds are
    2020-01-01 and 2024-12-31, in all three versions of the page. *)
Theorem C2_query_window_and_cloud_filter (aoi : ee.Geometry) (sy ey : Z) :
  let q := App2.load_sentinel_collection aoi sy ey in
  App3.load_sentinel_collection aoi sy ey = q
  ∧ ee.filters q
    = [ ee.Bounds aoi;
        ee.DateRange
          (ee.AsDate {| ee.year := sy; ee.month := 1; ee.day := 1; ee.millis := 0 |})
          (ee.AsDate {| ee.year := ey; ee.month := 12; ee.day := 31; ee.millis := 0 |});
        ee.Lt "CLOUDY_PIXEL_PERCENTAGE" (Q2Qc 10) ]
  ∧ cloud_ceiling q = Some (Q2Qc 10)
  ∧ (∀ im, ee.passes (ee.Lt "CLOUDY_PIXEL_PERCENTAGE" (Q2Qc 10)) im = true
           ↔ ∃ x, cloud im = Some x ∧ (x < Q2Qc 10)%Qc)
  ∧ (∀ im, ee.admits q im = true →
           ee.intersects im aoi = true
           ∧ ee.date_leb (ee.Date_fromYMD sy 1 1) (ee.time_start im) = true
           ∧ ∃ x, cloud im = Some x ∧ (x < Q2Qc 10)%Qc)
  ∧ date_window (App2.load_sentinel_collection aoi 2020 2024)
    = Some (ee.AsDate (ee.Date_fromYMD 2020 1 1), ee.AsDate (ee.Date_fromYMD 2024 12 31))
  ∧ date_window (App.collection 2020 2024)
    = Some (ee.AsText "2020-01-01", ee.AsText "2024-12-31")
  ∧ ee.date_of (ee.AsText "2020-01-01") = Some (ee.Date_fromYMD 2020 1 1)
  ∧ ee.date_of (ee.AsText "2024-12-31") = Some (ee.Date_fromYMD 2024 12 31)
  ∧ cloud_ceiling (App.collection 2020 2024) = Some (Q2Qc 10).
Proof.
  intros q. split; [reflexivity|]. split; [reflexivity|]. split; [reflexivity|].
  split; [intros im; apply passes_cloud_filter|].
  split.
  { intros im H. unfold ee.admits in H. simpl in H.
    apply andb_prop in H as [Hb H]. apply andb_prop in H as [Hd H].
    apply andb_prop in H as [Hc _]. apply andb_prop in Hd as [Hd _].
    split; [exact Hb|]. split; [exact Hd|].
    by apply (passes_cloud_filter (Q2Qc 10) im). }
  repeat split; vm_compute; reflexivity.
Qed.

(** What the date filter does with these bounds on the service: its end is
    excluded, so an image taken at noon of 31 December of the end year is not
    in the collection, while one taken at midnight of 1 January of the start
    year is. *)
Remark date_window_excludes_last_day :
  let at_ y m d ms : ee.ImageInfo :=
    {| ee.time_start := {| ee.year := y; ee.month := m; ee.day := d; ee.millis := ms |};
       ee.properties := {[ "CLOUDY_PIXEL_PERCENTAGE" := Q2Qc 0 ]};
       ee.intersects := λ _, true |} in
  let q := App2.load_sentinel_collection App2.get_default_geometry 2020 2024 in
  ee.admits q (at_ 2024 12 31 43200000) = false
  ∧ ee.admits q (at_ 2024 12 30 43200000) = true
  ∧ ee.admits q (at_ 2020 1 1 0) = true.
Proof. repeat split; vm_compute; reflexivity. Qed.

(** [C2_query_window_and_cloud_filter] at the image that is 7 % cloudy. *)
Lemma C2_witness :
  ee.intersects image_7pct App2.get_default_geometry = true
  ∧ ee.date_leb (ee.Date_fromYMD 2020 1 1) (ee.time_start image_7pct) = true
  ∧ ∃ x, cloud image_7pct = Some x ∧ (x < Q2Qc 10)%Qc.
Proof.
  refine (proj1 (proj2 (proj2 (proj2 (proj2
            (C2_query_window_and_cloud_filter App2.get_default_geometry 2020 2024)))))
            image_7pct _).
  vm_compute. reflexivity.
Defined.

(** ** Resolving the area of interest *)

Section Resolver.

Variable s : string.
Hypothesis Hs : s ≠ "".

Lemma nonempty_text : negb (String.eqb s "") = true.
Proof using Hs. apply negb_true_iff, String.eqb_neq, Hs. Qed.

(** In the custom mode the function is its [try] block, with the default
    polygon and an error box in place of any exception. *)
Lemma custom_geometry2 :
  App2.get_custom_geometry "Custom GeoJSON" s
  = match App2.parse_geojson s with
    | Ok g => ([aoi_header], Ok g)
    | Raise e =>
        ([aoi_header; error [Lit "Invalid GeoJSON: "; Shown e]],
         Ok App2.get_default_geometry)
    end.
Proof using Hs.
  unfold App2.get_custom_geometry. simpl String.eqb. rewrite nonempty_text.
  by destruct (App2.parse_geojson s).
Qed.

Lemma custom_geometry3 net pick appid :
  App3.get_custom_geometry net "Custom GeoJSON" s pick appid
  = match App3.parse_geojson s with
    | Ok g => ([aoi_header], Ok g)
    | Raise e =>
        ([aoi_header; error [Lit "Invalid GeoJSON input."]],
         Ok App3.get_default_geometry)
    end.
Proof using Hs.
  unfold App3.get_custom_geometry. simpl String.eqb. rewrite nonempty_text.
  by destruct (App3.parse_geojson s).
Qed.

End Resolver.

(** The ways the [try] block of [app2.py] can fail. *)
Lemma parse_geojson2_fails (s : string) (e : exn) :
  App2.parse_geojson s = Raise e
  ↔ Json.loads s = Raise e
    ∨ (∃ doc, Json.loads s = Ok doc ∧ App2.locate_geometry doc = Raise e)
    ∨ (∃ doc geom, Json.loads s = Ok doc ∧ App2.locate_geometry doc = Ok geom
                   ∧ ee.Geometry_of geom = Raise e).
Proof.
  unfold App2.parse_geojson. destruct (Json.loads s) as [doc|e0]; simpl.
  - destruct (App2.locate_geometry doc) as [geom|e1] eqn:Hloc; simpl.
    + split.
      * intros H. right. right. by exists doc, geom.
      * intros [H|[(d & [= <-] & H)|(d & g & [= <-] & Hg & H)]];
          [discriminate|congruence|congruence].
    + split.
      * intros [= <-]. right. left. by exists doc.
      * intros [H|[(d & [= <-] & H)|(d & g & [= <-] & Hg & H)]];
          [discriminate|congruence|congruence].
  - split.
    + intros [= <-]. by left.
    + intros [[= <-]|[(d & H & _)|(d & g & H & _)]];
        [reflexivity|discriminate|discriminate].
Qed.

Lemma parse_geojson3_fails (s : string) (e : exn) :
  App3.parse_geojson s = Raise e
  ↔ Json.loads s = Raise e
    ∨ (∃ doc, Json.loads s = Ok doc ∧ App3.locate_geometry doc = Raise e)
    ∨ (∃ doc geom, Json.loads s = Ok doc ∧ App3.locate_geometry doc = Ok geom
                   ∧ ee.Geometry_of geom = Raise e).
Proof.
  unfold App3.parse_geojson. destruct (Json.loads s) as [doc|e0]; simpl.
  - destruct (App3.locate_geometry doc) as [geom|e1] eqn:Hloc; simpl.
    + split.
      * intros H. right. right. by exists doc, geom.
      * intros [H|[(d & [= <-] & H)|(d & g & [= <-] & Hg & H)]];
          [discriminate|congruence|congruence].
    + split.
      * intros [= <-]. right. left. by exists doc.
      * intros [H|[(d & [= <-] & H)|(d & g & [= <-] & Hg & H)]];
          [discriminate|congruence|congruence].
  - split.
    + intros [= <-]. by left.
    + intros [[= <-]|[(d & H & _)|(d & g & H & _)]];
        [reflexivity|discriminate|discriminate].
Qed.

(** Neither version lets an exception out of the custom mode, and [app2.py]
    lets none out at all. *)
Lemma custom_mode_never_raises :
  (∀ choice s, ∃ calls g, App2.get_custom_geometry choice s = (calls, Ok g))
  ∧ (∀ net s pick appid,
       ∃ calls g, App3.get_custom_geometry net "Custom GeoJSON" s pick appid
                  = (calls, Ok g)).
Proof.
  split.
  - intros choice s. unfold App2.get_custom_geometry.
    destruct (String.eqb choice "Custom GeoJSON"); [|eexists _, _; reflexivity].
    destruct (negb (String.eqb s "")); [|eexists _, _; reflexivity].
    destruct (App2.parse_geojson s); eexists _, _; reflexivity.
  - intros net s pick appid. unfold App3.get_custom_geometry. simpl String.eqb.
    destruct (negb (String.eqb s "")); [|eexists _, _; reflexivity].
    destruct (App3.parse_geojson s); eexists _, _; reflexivity.
Qed.

Lemma default_polygon_shape :
  App3.get_default_geometry = App2.get_default_geometry
  ∧ App.lake = App2.get_default_geometry
  ∧ ee.g_type App2.get_default_geometry = JStr "Polygon"
  ∧ ee.g_coordinates App2.get_default_geometry = Some (JArr [JArr default_ring])
  ∧ length default_ring = 22%nat
  ∧ head default_ring = Some (ee.point 77.6392446351248 12.921051012051585)
  ∧ last default_ring = head default_ring
  ∧ NoDup (map (λ xy, (Q2Qc (fst xy), Q2Qc (snd xy))) (take 21 App2.default_coords))
  ∧ Spec.geometry_ok App2.get_default_geometry = true.
Proof.
  do 7 (split; [reflexivity|]). split.
  - apply (bool_decide_unpack _). vm_compute. exact I.
  - vm_compute. reflexivity.
Qed.

(** *** What the client's check lets through *)

Lemma nesting_of_ring (ring : list (Q * Q)) :
  ring ≠ [] → ee.isValidCoordinates (ring_literal ring) = Ok 2.
Proof.
  destruct ring as [|xy ring]; [done|]. intros _.
  unfold ring_literal. simpl.
  induction ring as [|xy' ring IH]; simpl; [reflexivity|exact IH].
Qed.

Lemma nesting_of_single (x : json) (c : Z) :
  PyOps.is_iterable x && negb (PyOps.is_str x) = true →
  ee.isValidCoordinates x = Ok c →
  ee.isValidCoordinates (JArr [x]) = Ok (c + 1).
Proof.
  intros Hit Hx. change (ee.isValidCoordinates (JArr [x]))
    with (if PyOps.is_iterable x && negb (PyOps.is_str x)
          then match ee.isValidCoordinates x with
               | Raise e => Raise e
               | Ok count => Ok (count + 1)
               end
          else if forallb PyOps.is_number [x]
               then (if Z.of_nat (length [x]) mod 2 =? 0 then Ok 1 else Ok (-1))
               else Ok (-1)).
  by rewrite Hit, Hx.
Qed.

(** A polygon literal with one ring of at least one position passes the
    check, whatever the number of positions and whether or not the ring
    closes. *)
Lemma polygon_literal_accepted (d : list (string * json)) (ring : list (Q * Q)) :
  ring ≠ [] →
  dict_get "type" d = Some (JStr "Polygon") →
  dict_get "coordinates" d = Some (JArr [ring_literal ring]) →
  dict_get "crs" d = None →
  ee.Geometry_of (JObj d)
  = Ok {| ee.g_type := JStr "Polygon";
          ee.g_coordinates := Some (JArr [ring_literal ring]);
          ee.g_geometries := dict_get "geometries" d;
          ee.g_proj := None |}.
Proof.
  intros Hring Ht Hc Hcrs.
  assert (Hn : ee.isValidCoordinates (JArr [ring_literal ring]) = Ok 3).
  { apply (nesting_of_single _ 2); [reflexivity|by apply nesting_of_ring]. }
  unfold ee.Geometry_of.
  assert (Hv : ee.isValidGeometry (JObj d) = Ok true).
  { cbn [ee.isValidGeometry]. rewrite Ht, Hc.
    cbn [ee.type_is String.eqb Ascii.eqb Bool.eqb].
    change (default JNull (Some (JArr [ring_literal ring])))
      with (JArr [ring_literal ring]).
    rewrite Hn. reflexivity. }
  rewrite Hv. cbn [mbind result_bind ee.construct].
  unfold ee.crs_name. rewrite Hcrs, Ht, Hc. reflexivity.
Qed.

Lemma locate_plain (d : list (string * json)) :
  dict_get "features" d = None → dict_get "geometry" d = None →
  App2.locate_geometry (JObj d) = Ok (JObj d)
  ∧ App3.locate_geometry (JObj d) = Ok (JObj d).
Proof.
  intros Hf Hg. unfold App2.locate_geometry, App3.locate_geometry. simpl.
  by rewrite Hf, Hg.
Qed.

(** *** Malformed text *)

(** C4, as stated, fails on the empty text, which no decoder accepts: in
    [app3.py] the custom mode then returns the default polygon without any
    message. *)
Lemma C4_counterexample_empty_text :
  Json.loads "" = Raise JSONDecodeError
  ∧ App3.get_custom_geometry no_network "Custom GeoJSON" "" 0 ""
    = ([aoi_header], Ok App3.get_default_geometry).
Proof. split; reflexivity. Qed.

(** C4, amended.  For every text that is not empty and that the [try] block
    rejects (the decoder refuses it, or no geometry is found in the decoded
    value, or the client's check refuses the geometry), the custom mode
    returns exactly the default polygon and shows an error box; no exception
    leaves the function.  The default polygon has 21 distinct vertices in a
    closed ring of 22 positions that starts at
    (77.6392446351248, 12.921051012051585).  On the empty text the default
    polygon is returned as well, with an information box in [app2.py] and
    with no message in [app3.py]. *)
Theorem C4_rejected_text_falls_back (s : string) :
  s ≠ "" →
  (∀ e, App2.parse_geojson s = Raise e →
        App2.get_custom_geometry "Custom GeoJSON" s
        = ([aoi_header; error [Lit "Invalid GeoJSON: "; Shown e]],
           Ok App2.get_default_geometry))
  ∧ (∀ e net pick appid, App3.parse_geojson s = Raise e →
        App3.get_custom_geometry net "Custom GeoJSON" s pick appid
        = ([aoi_header; error [Lit "Invalid GeoJSON input."]],
           Ok App3.get_default_geometry))
  ∧ (∀ e, Json.loads s = Raise e →
          App2.parse_geojson s = Raise e ∧ App3.parse_geojson s = Raise e)
  ∧ (∀ choice t, ∃ calls g, App2.get_custom_geometry choice t = (calls, Ok g))
  ∧ (∀ net t pick appid,
       ∃ calls g, App3.get_custom_geometry net "Custom GeoJSON" t pick appid
                  = (calls, Ok g))
  ∧ App2.get_custom_geometry "Custom GeoJSON" ""
    = ([aoi_header; info [Lit "Awaiting GeoJSON input..."]],
       Ok App2.get_default_geometry)
  ∧ (∀ net pick appid,
       App3.get_custom_geometry net "Custom GeoJSON" "" pick appid
       = ([aoi_header], Ok App3.get_default_geometry))
  ∧ App3.get_default_geometry = App2.get_default_geometry
  ∧ ee.g_coordinates App2.get_default_geometry = Some (JArr [JArr default_ring])
  ∧ length default_ring = 22%nat
  ∧ head default_ring = Some (ee.point 77.6392446351248 12.921051012051585)
  ∧ last default_ring = head default_ring
  ∧ NoDup (map (λ xy, (Q2Qc (fst xy), Q2Qc (snd xy))) (take 21 App2.default_coords)).
Proof.
  intros Hs.
  split; [intros e He; by rewrite (custom_geometry2 s Hs), He|].
  split; [intros e net pick appid He; by rewrite (custom_geometry3 s Hs), He|].
  split.
  { intros e He. split.
    - apply parse_geojson2_fails. by left.
    - apply parse_geojson3_fails. by left. }
  split; [apply custom_mode_never_raises|].
  split; [apply custom_mode_never_raises|].
  split; [reflexivity|].
  split; [reflexivity|].
  destruct default_polygon_shape as (H1 & _ & _ & H4 & H5 & H6 & H7 & H8 & _).
  auto 10.
Qed.

(** [C4_rejected_text_falls_back] at a text that is not JSON. *)
Lemma C4_witness :
  App2.get_custom_geometry "Custom GeoJSON" "{not json"
  = ([aoi_header; error [Lit "Invalid GeoJSON: "; Shown JSONDecodeError]],
     Ok App2.get_default_geometry).
Proof.
  refine (proj1 (C4_rejected_text_falls_back "{not json" _) JSONDecodeError _).
  - discriminate.
  - vm_compute. reflexivity.
Defined.

(** Texts of several kinds that end in the default polygon: not JSON, JSON
    that is no object, a feature collection without features, coordinates of
    the wrong depth, an unknown geometry type. *)
Example rejected_texts :
  Forall (λ s, ∃ e, App2.parse_geojson s = Raise e ∧ ∃ e', App3.parse_geojson s = Raise e')
    [ "{not json"; "[1, 2, 3]"; "42"; quoted "'features'";
      quoted "{'features': []}";
      quoted "{'type': 'Polygon', 'coordinates': [[0, 0], [1, 0], [0, 1], [0, 0]]}";
      quoted "{'type': 'Circle', 'coordinates': [0, 0]}";
      quoted "{'geometry': null}" ].
Proof. repeat constructor; vm_compute; eauto. Qed.

(** *** Rings *)

(** C6, as stated, fails: a pasted polygon whose only ring has three
    positions and does not close is returned as the area of interest, by
    both versions, without any message. *)
Lemma C6_counterexample_open_ring :
  match App2.get_custom_geometry "Custom GeoJSON" open_triangle,
        App3.get_custom_geometry no_network "Custom GeoJSON" open_triangle 0 "" with
  | (calls2, Ok g2), (calls3, Ok g3) =>
      calls2 = [aoi_header] ∧ calls3 = [aoi_header] ∧ g2 = g3
      ∧ ee.g_coordinates g2 = Some (JArr [ring_literal [(0, 0); (1, 0); (0, 1)]%Q])
      ∧ Spec.geometry_ok g2 = false
  | _, _ => False
  end.
Proof. vm_compute. repeat split; reflexivity. Qed.

(** C6, amended.  The resolver does not look at the ring: a pasted text that
    decodes to a Polygon geometry object with no 'features', 'geometry' or
    'crs' member, whose coordinates are one ring of at least one position,
    each position a pair of numbers, is returned as the area of interest as
    it is, whatever the number of positions and whether or not the first
    equals the last.  The default polygon does satisfy the invariant. *)
Theorem C6_ring_is_not_checked
    (s : string) (d : list (string * json)) (ring : list (Q * Q))
    (net : requests.Transport) (pick : nat) (appid : string) :
  s ≠ "" →
  Json.loads s = Ok (JObj d) →
  dict_get "features" d = None →
  dict_get "geometry" d = None →
  dict_get "crs" d = None →
  dict_get "type" d = Some (JStr "Polygon") →
  dict_get "coordinates" d = Some (JArr [ring_literal ring]) →
  ring ≠ [] →
  let g := {| ee.g_type := JStr "Polygon";
              ee.g_coordinates := Some (JArr [ring_literal ring]);
              ee.g_geometries := dict_get "geometries" d;
              ee.g_proj := None |} in
  App2.get_custom_geometry "Custom GeoJSON" s = ([aoi_header], Ok g)
  ∧ App3.get_custom_geometry net "Custom GeoJSON" s pick appid = ([aoi_header], Ok g)
  ∧ Spec.geometry_ok App2.get_default_geometry = true.
Proof.
  intros Hs Hdoc Hf Hg Hcrs Ht Hc Hring g.
  destruct (locate_plain d Hf Hg) as [Hl2 Hl3].
  pose proof (polygon_literal_accepted d ring Hring Ht Hc Hcrs) as Hacc.
  split; [|split].
  - rewrite (custom_geometry2 s Hs). unfold App2.parse_geojson.
    rewrite Hdoc. simpl. rewrite Hl2. simpl. by rewrite Hacc.
  - rewrite (custom_geometry3 s Hs). unfold App3.parse_geojson.
    rewrite Hdoc. simpl. rewrite Hl3. simpl. by rewrite Hacc.
  - vm_compute. reflexivity.
Qed.

(** [C6_ring_is_not_checked] at the open triangle. *)
Lemma C6_witness :
  App2.get_custom_geometry "Custom GeoJSON" open_triangle
  = ([aoi_header],
     Ok {| ee.g_type := JStr "Polygon";
           ee.g_coordinates := Some (JArr [ring_literal [(0, 0); (1, 0); (0, 1)]%Q]);
           ee.g_geometries := None;
           ee.g_proj := None |}).
Proof.
  refine (proj1 (C6_ring_is_not_checked open_triangle
                   [("type", JStr "Polygon");
                    ("coordinates", JArr [ring_literal [(0, 0); (1, 0); (0, 1)]%Q])]
                   [(0, 0); (1, 0); (0, 1)]%Q no_network 0 "" _ _ _ _ _ _ _ _));
    try reflexivity; discriminate.
Defined.

(** *** Saved polygons *)

(** With no polygon chosen from the list, the default polygon is returned
    and an information box is shown; with one chosen, its geometry. *)
Example saved_polygon_choice :
  App3.get_custom_geometry one_polygon "Saved Polygon" "" 0 "key"
  = ([aoi_header; info [Lit "No saved polygon selected, using default."]],
     Ok App3.get_default_geometry)
  ∧ App3.get_custom_geometry one_polygon "Saved Polygon" "" 1 "key"
    = ([aoi_header],
       Ok {| ee.g_type := JStr "Polygon";
             ee.g_coordinates :=
               Some (JArr [ring_literal [(0, 0); (1, 0); (1, 1); (0, 0)]%Q]);
             ee.g_geometries := None;
             ee.g_proj := None |}).
Proof. split; vm_compute; reflexivity. Qed.

(** Whatever [list_polygons_api] raises comes out of
    [get_custom_geometry]: the saved-polygon branch has no [try]. *)
Lemma saved_polygon_fault_escapes
    (net : requests.Transport) (geojson_str appid : string) (pick : nat) (e : exn) :
  appid ≠ "" →
  App3.list_polygons_api net appid = Raise e →
  App3.get_custom_geometry net "Saved Polygon" geojson_str pick appid
  = ([aoi_header], Raise e).
Proof.
  intros Hid Hnet. unfold App3.get_custom_geometry. simpl String.eqb.
  assert (Hne : negb (String.eqb appid "") = true)
    by (by apply negb_true_iff, String.eqb_neq).
  rewrite Hne. unfold App3.get_polygon_from_api. rewrite Hnet. reflexivity.
Qed.

(** C5 does not hold of the code.  With the saved-polygon source chosen and a
    key entered, a refused key (HTTP 401), an unreachable catalogue and an
    answer that is not JSON each leave [get_custom_geometry] as an exception;
    no default polygon is returned and no message is shown. *)
Theorem C5_transport_fault_is_raised :
  App3.get_custom_geometry unauthorized "Saved Polygon" "" 0 "bad-key"
  = ([aoi_header], Raise (HTTPError 401))
  ∧ App3.get_custom_geometry no_network "Saved Polygon" "" 0 "key"
    = ([aoi_header], Raise ConnectionError)
  ∧ App3.get_custom_geometry garbled "Saved Polygon" "" 0 "key"
    = ([aoi_header], Raise JSONDecodeError)
  ∧ snd (App3.main
           {| App3.appid := "bad-key"; App3.sy := 2020; App3.ey := 2024;
              App3.option := "Saved Polygon"; App3.geojson_str := "";
              App3.pick := 0%nat; App3.checkbox := λ _, true |}
           unauthorized example_service)
    = Raise (HTTPError 401).
Proof. repeat split; vm_compute; reflexivity. Qed.

(** * Further properties *)

(** ** The two versions of the custom mode *)

Lemma result_bind_Ok {A B} (a : A) (f : A → result B) : (Ok a ≫= f) = f a.
Proof. reflexivity. Qed.

Lemma locate_agree_on_objects (d : list (string * json)) :
  App2.locate_geometry (JObj d) = App3.locate_geometry (JObj d).
Proof.
  unfold App2.locate_geometry, App3.locate_geometry. simpl.
  destruct (dict_get "features" d) as [v|]; simpl; [reflexivity|].
  destruct (dict_get "geometry" d) as [v|]; reflexivity.
Qed.

(** A decoded value that is no object never gives a geometry. *)
Lemma no_geometry_outside_objects (doc : json) :
  (∀ d, doc ≠ JObj d) →
  (∀ g, (geom ← App2.locate_geometry doc; ee.Geometry_of geom) ≠ Ok g)
  ∧ (∀ g, (geom ← App3.locate_geometry doc; ee.Geometry_of geom) ≠ Ok g).
Proof.
  intros Hdoc. unfold App2.locate_geometry, App3.locate_geometry.
  destruct doc as [|b|n|str|l|d]; try (split; intros g; discriminate).
  - split; intros g; simpl.
    + destruct (PyOps.is_substring "features" str); simpl; [discriminate|].
      destruct (PyOps.is_substring "geometry" str); simpl; discriminate.
    + destruct (PyOps.is_substring "features" str); simpl; discriminate.
  - split; intros g; simpl.
    + destruct (existsb _ l); simpl; [discriminate|].
      destruct (existsb _ l); simpl; discriminate.
    + destruct (existsb _ l); simpl; discriminate.
  - by destruct (Hdoc d).
Qed.

(** X1.  [app2.py] and [app3.py] accept the same pasted texts and read the
    same geometry from them; in the custom mode they return the same area of
    interest for every text, the empty one included. *)
Theorem X1_versions_resolve_alike
    (net : requests.Transport) (s : string) (pick : nat) (appid : string) :
  (∀ g, App2.parse_geojson s = Ok g ↔ App3.parse_geojson s = Ok g)
  ∧ snd (App2.get_custom_geometry "Custom GeoJSON" s)
    = snd (App3.get_custom_geometry net "Custom GeoJSON" s pick appid).
Proof.
  assert (Hagree : ∀ g, App2.parse_geojson s = Ok g ↔ App3.parse_geojson s = Ok g).
  { intros g. unfold App2.parse_geojson, App3.parse_geojson.
    destruct (Json.loads s) as [doc|e]; [|done].
    rewrite !result_bind_Ok.
    destruct doc as [|b|n|str|l|d];
      try (match goal with
           | |- context [App2.locate_geometry ?doc] =>
               destruct (no_geometry_outside_objects doc) as [H2 H3];
               [intros d'; discriminate|]
           end;
           split; intros H; [destruct (H2 g H)|destruct (H3 g H)]).
    by rewrite locate_agree_on_objects. }
  split; [exact Hagree|].
  destruct (decide (s = "")) as [->|Hs]; [reflexivity|].
  rewrite (custom_geometry2 s Hs), (custom_geometry3 s Hs).
  destruct (App2.parse_geojson s) as [g|e] eqn:E2.
  - by rewrite (proj1 (Hagree g) eq_refl).
  - destruct (App3.parse_geojson s) as [g|e'] eqn:E3; [|reflexivity].
    by pose proof (proj2 (Hagree g) eq_refl).
Qed.


Lemma custom2_of_doc (s : string) (doc : json) :
  s ≠ "" → Json.loads s = Ok doc →
  App2.get_custom_geometry "Custom GeoJSON" s
  = resolved2 (geom ← App2.locate_geometry doc; ee.Geometry_of geom).
Proof.
  intros Hs Hdoc. rewrite (custom_geometry2 s Hs). unfold App2.parse_geojson.
  rewrite Hdoc, result_bind_Ok. reflexivity.
Qed.

Lemma custom3_of_doc (net : requests.Transport) (pick : nat) (appid s : string)
    (doc : json) :
  s ≠ "" → Json.loads s = Ok doc →
  App3.get_custom_geometry net "Custom GeoJSON" s pick appid
  = resolved3 (geom ← App3.locate_geometry doc; ee.Geometry_of geom).
Proof.
  intros Hs Hdoc. rewrite (custom_geometry3 s Hs). unfold App3.parse_geojson.
  rewrite Hdoc, result_bind_Ok. reflexivity.
Qed.

Lemma locate_member (d : list (string * json)) (g : json) :
  dict_get "features" d = None → dict_get "geometry" d = Some g →
  App2.locate_geometry (JObj d) = Ok g.
Proof.
  intros Hf Hg. unfold App2.locate_geometry. simpl. by rewrite Hf, Hg.
Qed.

(** X2.  Of a pasted object that has a 'geometry' member and no 'features'
    member, such as a Feature, both versions hand that member alone to
    [ee.Geometry]: the area of interest is the geometry built from it, or the
    default polygon with the error box when [ee.Geometry] refuses it,
    whatever the other members of the object are.  So when the member is a
    plain geometry object, one with no 'features' and no 'geometry' member of
    its own, the object is resolved exactly as the text of that geometry
    alone would be, messages included. *)
Theorem X2_feature_resolves_as_its_geometry
    (net : requests.Transport) (pick : nat) (appid : string)
    (feature : string) (d1 : list (string * json)) (g : json) :
  feature ≠ "" →
  Json.loads feature = Ok (JObj d1) →
  dict_get "features" d1 = None → dict_get "geometry" d1 = Some g →
  App2.get_custom_geometry "Custom GeoJSON" feature = resolved2 (ee.Geometry_of g)
  ∧ App3.get_custom_geometry net "Custom GeoJSON" feature pick appid
    = resolved3 (ee.Geometry_of g)
  ∧ ∀ (bare : string) (d0 : list (string * json)),
      bare ≠ "" → Json.loads bare = Ok (JObj d0) → g = JObj d0 →
      dict_get "features" d0 = None → dict_get "geometry" d0 = None →
      App2.get_custom_geometry "Custom GeoJSON" feature
      = App2.get_custom_geometry "Custom GeoJSON" bare
      ∧ App3.get_custom_geometry net "Custom GeoJSON" feature pick appid
        = App3.get_custom_geometry net "Custom GeoJSON" bare pick appid.
Proof.
  intros Hf Hdoc1 Hf1 Hg1.
  pose proof (locate_member d1 g Hf1 Hg1) as Hm2.
  assert (H2 : App2.get_custom_geometry "Custom GeoJSON" feature
               = resolved2 (ee.Geometry_of g)).
  { by rewrite (custom2_of_doc _ _ Hf Hdoc1), Hm2, result_bind_Ok. }
  assert (H3 : App3.get_custom_geometry net "Custom GeoJSON" feature pick appid
               = resolved3 (ee.Geometry_of g)).
  { rewrite (custom3_of_doc _ _ _ _ _ Hf Hdoc1).
    by rewrite <- locate_agree_on_objects, Hm2, result_bind_Ok. }
  split; [exact H2|]. split; [exact H3|].
  intros bare d0 Hb Hdoc0 -> Hf0 Hg0.
  destruct (locate_plain d0 Hf0 Hg0) as [Hl2 Hl3].
  rewrite H2, H3.
  rewrite (custom2_of_doc _ _ Hb Hdoc0), (custom3_of_doc _ _ _ _ _ Hb Hdoc0).
  by rewrite <- locate_agree_on_objects, Hl2, result_bind_Ok.
Qed.

(** [X2_feature_resolves_as_its_geometry] at a closed square. *)
Lemma X2_witness :
  App2.get_custom_geometry "Custom GeoJSON" feature_text
  = App2.get_custom_geometry "Custom GeoJSON" bare_text.
Proof.
  refine (proj1 (proj2 (proj2
            (X2_feature_resolves_as_its_geometry no_network 0 "" feature_text
               [("type", JStr "Feature"); ("properties", JObj []);
                ("geometry",
                 JObj [("type", JStr "Polygon");
                       ("coordinates",
                        JArr [ring_literal [(0, 0); (1, 0); (1, 1); (0, 0)]%Q])])]
               (JObj [("type", JStr "Polygon");
                      ("coordinates",
                       JArr [ring_literal [(0, 0); (1, 0); (1, 1); (0, 0)]%Q])])
               _ _ _ _))
            bare_text
            [("type", JStr "Polygon");
             ("coordinates", JArr [ring_literal [(0, 0); (1, 0); (1, 1); (0, 0)]%Q])]
            _ _ _ _ _));
    try reflexivity; discriminate.
Defined.

(** X3.  Of a feature collection only the first feature counts: its geometry
    member decides the outcome, whatever the other features are and whatever
    'geometry' member the collection itself may have.  A collection with an
    empty list of features ends in the default polygon. *)
Theorem X3_collection_uses_first_feature
    (net : requests.Transport) (pick : nat) (appid : string)
    (s : string) (d : list (string * json)) (features : list json) :
  s ≠ "" →
  Json.loads s = Ok (JObj d) →
  dict_get "features" d = Some (JArr features) →
  match features with
  | [] =>
      App2.get_custom_geometry "Custom GeoJSON" s = resolved2 (Raise IndexError)
      ∧ App3.get_custom_geometry net "Custom GeoJSON" s pick appid
        = resolved3 (Raise IndexError)
  | first :: _ =>
      App2.get_custom_geometry "Custom GeoJSON" s
      = resolved2 (geom ← PyOps.getitem first "geometry"; ee.Geometry_of geom)
      ∧ App3.get_custom_geometry net "Custom GeoJSON" s pick appid
        = resolved3 (geom ← PyOps.getitem first "geometry"; ee.Geometry_of geom)
  end.
Proof.
  intros Hs Hdoc Hf.
  rewrite (custom2_of_doc _ _ Hs Hdoc), (custom3_of_doc net pick appid _ _ Hs Hdoc).
  rewrite <- locate_agree_on_objects.
  assert (Hl : App2.locate_geometry (JObj d)
               = (first ← PyOps.getitem_at (JArr features) 0;
                  PyOps.getitem first "geometry")).
  { unfold App2.locate_geometry. simpl. by rewrite Hf. }
  rewrite Hl. by destruct features as [|first rest].
Qed.

(** [X3_collection_uses_first_feature] at a collection of two features. *)
Lemma X3_witness :
  App2.get_custom_geometry "Custom GeoJSON" collection_text
  = App2.get_custom_geometry "Custom GeoJSON" bare_text.
Proof.
  pose proof (X3_collection_uses_first_feature no_network 0 "" collection_text
                [("type", JStr "FeatureCollection");
                 ("features",
                  JArr [JObj [("type", JStr "Feature");
                              ("geometry",
                               JObj [("type", JStr "Polygon");
                                     ("coordinates",
                                      JArr [ring_literal
                                              [(0, 0); (1, 0); (1, 1); (0, 0)]%Q])])];
                        JObj [("type", JStr "Feature"); ("geometry", JNull)]])]
                _ ltac:(discriminate) eq_refl eq_refl) as [H _].
  rewrite H. reflexivity.
Defined.

(** ** The saved-polygon mode *)

(** X4.  The catalogue is asked only in the saved-polygon mode with a key
    entered.  The custom mode gives the same result whatever the network,
    the key and the position picked; and any other source, as well as the
    saved-polygon source without a key, gives the default polygon with no
    message and whatever the text area holds. *)
Theorem X4_catalogue_asked_only_with_key
    (net net' : requests.Transport) (option s : string) (pick pick' : nat)
    (appid appid' : string) :
  App3.get_custom_geometry net "Custom GeoJSON" s pick appid
  = App3.get_custom_geometry net' "Custom GeoJSON" s pick' appid'
  ∧ (option ≠ "Custom GeoJSON" →
     option ≠ "Saved Polygon" ∨ appid = "" →
     App3.get_custom_geometry net option s pick appid
     = ([aoi_header], Ok App3.get_default_geometry))
  ∧ (option ≠ "Custom GeoJSON" →
     App2.get_custom_geometry option s = ([aoi_header], Ok App2.get_default_geometry)).
Proof.
  split; [reflexivity|]. split.
  - intros Hc Hs. unfold App3.get_custom_geometry.
    apply String.eqb_neq in Hc. rewrite Hc.
    destruct Hs as [Hs| ->].
    + apply String.eqb_neq in Hs. by rewrite Hs.
    + by rewrite andb_false_r.
  - intros Hc. unfold App2.get_custom_geometry.
    apply String.eqb_neq in Hc. by rewrite Hc.
Qed.

(** [X4_catalogue_asked_only_with_key] with the saved-polygon source chosen
    and no key. *)
Lemma X4_witness :
  App3.get_custom_geometry one_polygon "Saved Polygon" "ignored" 1 ""
  = ([aoi_header], Ok App3.get_default_geometry).
Proof.
  refine (proj1 (proj2 (X4_catalogue_asked_only_with_key one_polygon one_polygon
                          "Saved Polygon" "ignored" 1 1 "" "")) _ _).
  - discriminate.
  - by right.
Defined.






Lemma saved_mode_with_key (net : requests.Transport) (s appid : string) (pick : nat) :
  appid ≠ "" →
  App3.get_custom_geometry net "Saved Polygon" s pick appid
  = match App3.get_polygon_from_api net appid pick with
    | Ok (Some g) => ([aoi_header], Ok g)
    | Ok None =>
        ([aoi_header; info [Lit "No saved polygon selected, using default."]],
         Ok App3.get_default_geometry)
    | Raise e => ([aoi_header], Raise e)
    end.
Proof.
  intros Hid. unfold App3.get_custom_geometry. simpl String.eqb.
  assert (Hne : negb (String.eqb appid "") = true)
    by (by apply negb_true_iff, String.eqb_neq).
  rewrite Hne. simpl.
  by destruct (App3.get_polygon_from_api net appid pick) as [[g|]|e].
Qed.



(** X6.  The labels of all records are built before the user's choice is
    looked at: one record without a name or an id, or with one that is not a
    string, makes [get_custom_geometry] raise whatever is picked, also when
    nothing is picked. *)
Theorem X6_bad_record_breaks_the_list
    (net : requests.Transport) (s appid : string) (pick : nat)
    (doc : json) (items : list json) (e : exn) :
  appid ≠ "" →
  App3.list_polygons_api net appid = Ok doc →
  PyOps.iter doc = Ok items →
  mapM App3.label items = Raise e →
  App3.get_custom_geometry net "Saved Polygon" s pick appid
  = ([aoi_header], Raise e).
Proof.
  intros Hid Hlist Hiter Hmap.
  rewrite (saved_mode_with_key net s appid pick Hid).
  unfold App3.get_polygon_from_api.
  by rewrite Hlist, result_bind_Ok, Hiter, result_bind_Ok, Hmap.
Qed.

(** [X6_bad_record_breaks_the_list] with nothing picked. *)
Lemma X6_witness :
  App3.get_custom_geometry missing_id "Saved Polygon" "" 0 "key"
  = ([aoi_header], Raise (KeyError "id")).
Proof.
  apply (X6_bad_record_breaks_the_list missing_id "" "key" 0
           (JArr missing_id_records) missing_id_records).
  - discriminate.
  - vm_compute. reflexivity.
  - reflexivity.
  - vm_compute. reflexivity.
Defined.

(** ** More on the index functions *)

Section MoreBands.

Implicit Types (img : ee.Image) (n : string) (b : string * ee.Band).

Lemma select_Ok_elem img n b : ee.select n img = Ok b → n ∈ ee.bandNames img.
Proof.
  induction img as [|[m v] img IH]; simpl; [discriminate|].
  destruct (String.eqb n m) eqn:E.
  - apply String.eqb_eq in E. subst. intros _. apply list_elem_of_here.
  - intros H. apply list_elem_of_further. auto.
Qed.

Lemma bandNames_divide_image img c :
  ee.bandNames (ee.divide_image img c) = ee.bandNames img.
Proof.
  unfold ee.bandNames, ee.divide_image. rewrite map_map. by apply map_ext.
Qed.

Lemma candidate_inj (base : string) :
  Inj (=) (=) (λ k : nat, base +:+ "_" +:+ pretty k).
Proof.
  intros k1 k2 H. apply (String.app_inj base) in H.
  apply (String.app_inj "_") in H. by apply pretty_nat_inj in H.
Qed.

(** The name given to an added band is not a name of the image. *)
Lemma fresh_name_is_fresh (names : list string) (base : string) :
  ee.fresh_name names base ∉ names.
Proof.
  unfold ee.fresh_name. case_bool_decide as Hin; [|exact Hin].
  set (cands := map (λ k : nat, base +:+ "_" +:+ pretty k) (seq 1 (S (length names)))).
  destruct (head (filter (λ c, c ∉ names) cands)) as [c|] eqn:E; simpl.
  - apply head_Some_elem_of, list_elem_of_filter in E. by destruct E.
  - exfalso. apply head_None in E.
    assert (Hall : ∀ x, x ∈ cands → x ∈ names).
    { intros x Hx. destruct (decide (x ∈ names)) as [|Hout]; [done|].
      assert (Hf : x ∈ filter (λ c, c ∉ names) cands)
        by (by apply list_elem_of_filter).
      rewrite E in Hf. inversion Hf. }
    assert (Hnd : NoDup cands).
    { apply (NoDup_fmap_2 (λ k : nat, base +:+ "_" +:+ pretty k)
               (Inj0 := candidate_inj base)), NoDup_seq. }
    pose proof (submseteq_length _ _ (NoDup_submseteq _ _ Hnd Hall)) as Hlen.
    unfold cands in Hlen. rewrite length_map, length_seq in Hlen. lia.
Qed.

Lemma addBand_NoDup img b :
  NoDup (ee.bandNames img) → NoDup (ee.bandNames (ee.addBand img b)).
Proof.
  intros Hnd. unfold ee.addBand. rewrite bandNames_app. simpl.
  apply NoDup_app. split; [exact Hnd|]. split; [|apply NoDup_singleton].
  intros x Hx Hx'. apply list_elem_of_singleton in Hx' as ->.
  by apply (fresh_name_is_fresh (ee.bandNames img) (fst b)).
Qed.

Lemma addBands_NoDup (ext : ee.Image) : ∀ img,
  NoDup (ee.bandNames img) → NoDup (ee.bandNames (ee.addBands img ext)).
Proof.
  induction ext as [|b ext IH]; intros img Hnd; simpl; [exact Hnd|].
  by apply IH, addBand_NoDup.
Qed.

Lemma addBands_length (ext : ee.Image) : ∀ img,
  length (ee.addBands img ext) = (length img + length ext)%nat.
Proof.
  induction ext as [|b ext IH]; intros img; simpl; [lia|].
  rewrite IH. unfold ee.addBand. rewrite length_app. simpl. lia.
Qed.

Lemma select_divide_image_gen img n c :
  ee.select n (ee.divide_image img c)
  = (b ← ee.select n img; Ok (ee.divide_by b c)).
Proof.
  induction img as [|[m w] img IH]; simpl; [reflexivity|].
  destruct (String.eqb n m); [reflexivity|exact IH].
Qed.

End MoreBands.

Lemma indices_Ok_raw (image out : ee.Image) :
  App2.add_fai_mci_turbidity image = Ok out → Spec.raw ⊆ ee.bandNames image.
Proof.
  intros Hout. unfold App2.add_fai_mci_turbidity, App2.normalize in Hout.
  rewrite !select_divide_image_gen in Hout.
  destruct (ee.select "B4" image) as [r4|] eqn:E4; [|discriminate].
  destruct (ee.select "B8" image) as [r8|] eqn:E8; [|discriminate].
  destruct (ee.select "B11" image) as [r11|] eqn:E11; [|discriminate].
  destruct (ee.select "B5" image) as [r5|] eqn:E5; [|discriminate].
  destruct (ee.select "B6" image) as [r6|] eqn:E6; [|discriminate].
  intros r Hr. unfold Spec.raw in Hr.
  repeat (apply elem_of_cons in Hr as [->|Hr]; [by eapply select_Ok_elem|]).
  inversion Hr.
Qed.

(** X8.  The index function returns a result exactly on the images that
    carry all five raw bands B4, B5, B6, B8, B11; on any other image the
    evaluation fails. *)
Theorem X8_indices_need_the_raw_bands (image : ee.Image) :
  (∃ out, App2.add_fai_mci_turbidity image = Ok out)
  ↔ Spec.raw ⊆ ee.bandNames image.
Proof.
  split.
  - intros [out Hout]. by apply (indices_Ok_raw image out).
  - intros Hraw.
    destruct (raw_bands_selected image Hraw)
      as (b4 & b5 & b6 & b8 & b11 & E4 & E5 & E6 & E8 & E11).
    eexists. exact (add_fai_mci_turbidity_eq _ _ _ _ _ _ E4 E5 E6 E8 E11).
Qed.

(** X9.  On an image whose band names are distinct the index function
    returns an image whose band names are distinct again, with three bands
    more; so does [add_fai_mci] of [app.py], with two bands more.  No band
    is ever hidden behind another of the same name. *)
Theorem X9_band_names_stay_distinct (image out : ee.Image) :
  NoDup (ee.bandNames image) →
  (App2.add_fai_mci_turbidity image = Ok out →
   NoDup (ee.bandNames out) ∧ length out = (length image + 3)%nat)
  ∧ (App.add_fai_mci image = Ok out →
     NoDup (ee.bandNames out) ∧ length out = (length image + 2)%nat).
Proof.
  intros Hnd. split.
  - intros Hout.
    assert (Hraw : Spec.raw ⊆ ee.bandNames image)
      by (by apply (indices_Ok_raw image out)).
    destruct (raw_bands_selected image Hraw)
      as (b4 & b5 & b6 & b8 & b11 & E4 & E5 & E6 & E8 & E11).
    rewrite (add_fai_mci_turbidity_eq _ _ _ _ _ _ E4 E5 E6 E8 E11) in Hout.
    assert (Hout' : out = ee.addBands image (index_bands b4 b5 b6 b8 b11))
      by congruence.
    rewrite Hout'. split; [by apply addBands_NoDup|].
    by rewrite addBands_length.
  - unfold App.add_fai_mci.
    destruct (ee.select "B4" image) as [r4|]; [|discriminate].
    destruct (ee.select "B8" image) as [r8|]; [|discriminate].
    destruct (ee.select "B11" image) as [r11|]; [|discriminate].
    destruct (ee.select "B5" image) as [r5|]; [|discriminate].
    destruct (ee.select "B6" image) as [r6|]; [|discriminate].
    rewrite !result_bind_Ok. intros Hout.
    assert (Hout' : ∃ f m : string * ee.Band,
               out = ee.addBand (ee.addBand image f) m)
      by (eexists _, _; injection Hout as <-; reflexivity).
    destruct Hout' as (f & m & ->).
    split; [by do 2 apply addBand_NoDup|].
    unfold ee.addBand. rewrite !length_app. simpl. lia.
Qed.

(** [X9_band_names_stay_distinct] at the image of the worked example. *)
Lemma X9_witness :
  NoDup (ee.bandNames
           (ee.addBands sample_image
              (index_bands (λ _, Spec.qz 2000) (λ _, Spec.qz 2500) (λ _, Spec.qz 3200)
                           (λ _, Spec.qz 4000) (λ _, Spec.qz 3000))))
  ∧ length (ee.addBands sample_image
              (index_bands (λ _, Spec.qz 2000) (λ _, Spec.qz 2500) (λ _, Spec.qz 3200)
                           (λ _, Spec.qz 4000) (λ _, Spec.qz 3000)))
    = (length sample_image + 3)%nat.
Proof.
  refine (proj1 (X9_band_names_stay_distinct sample_image _ _) _).
  - apply (bool_decide_unpack _). vm_compute. exact I.
  - reflexivity.
Defined.

Lemma qz_nonzero (z : Z) : z ≠ 0 → Spec.qz z ≠ Q2Qc 0.
Proof.
  intros Hz H. apply Q2Qc_eq_iff in H. unfold Qeq, inject_Z in H. simpl in H. lia.
Qed.

Lemma Qcdiv_0_r (x : Qc) : (x / Q2Qc 0)%Qc = Q2Qc 0.
Proof. unfold Qcdiv. apply Qcmult_0_r. Qed.

(** X10.  [add_fai_mci] of [app.py] works on the raw values: on every image
    with the raw bands its FAI and MCI are 10000 times the FAI and MCI that
    [add_fai_mci_turbidity] of [app2.py] and [app3.py] computes from the same
    image.  In every version the MCI band is the difference of B5 and B4:
    the term with B6 is multiplied by the quotient (705-665)/(740-665) of two
    integers, which is 0.  Turbidity does not depend on the normalisation:
    it is the quotient of the raw bands B11 and B4. *)
Theorem X10_raw_and_normalised_indices
    (image : ee.Image) (b4 b5 b6 b8 b11 : ee.Band) (p : ee.Pixel) :
  ee.select "B4" image = Ok ("B4", b4) →
  ee.select "B5" image = Ok ("B5", b5) →
  ee.select "B6" image = Ok ("B6", b6) →
  ee.select "B8" image = Ok ("B8", b8) →
  ee.select "B11" image = Ok ("B11", b11) →
  App.add_fai_mci image = Ok (ee.addBands image (raw_index_bands b4 b5 b6 b8 b11))
  ∧ App2.add_fai_mci_turbidity image
    = Ok (ee.addBands image (index_bands b4 b5 b6 b8 b11))
  ∧ ∃ fai mci turb,
      map (λ b, (fst b, snd b p)) (index_bands b4 b5 b6 b8 b11)
      = [("FAI", fai); ("MCI", mci); ("Turbidity", turb)]
      ∧ map (λ b, (fst b, snd b p)) (raw_index_bands b4 b5 b6 b8 b11)
        = [("FAI", (Spec.qz 10000 * fai)%Qc); ("MCI", (Spec.qz 10000 * mci)%Qc)]
      ∧ mci = (Spec.normalized (b5 p) - Spec.normalized (b4 p))%Qc
      ∧ turb = (b11 p / b4 p)%Qc.
Proof.
  intros E4 E5 E6 E8 E11.
  split.
  { unfold App.add_fai_mci. rewrite E4, E5, E6, E8, E11. reflexivity. }
  split; [exact (add_fai_mci_turbidity_eq _ _ _ _ _ _ E4 E5 E6 E8 E11)|].
  eexists _, _, _. split; [reflexivity|].
  assert (H1 : Spec.qz 10000 ≠ Q2Qc 0) by (by apply qz_nonzero).
  assert (H2 : Spec.qz 945 ≠ Q2Qc 0) by (by apply qz_nonzero).
  assert (H3 : Spec.qz 75 ≠ Q2Qc 0) by (by apply qz_nonzero).
  split; [simpl; repeat f_equal; field; auto|].
  split; [apply mci_term_vanishes|].
  simpl. destruct (Qc_eq_dec (b4 p) (Q2Qc 0)) as [Hz|Hnz].
  - rewrite Hz.
    assert (H0 : (Q2Qc 0 / Spec.qz 10000)%Qc = Q2Qc 0)
      by (unfold Qcdiv; apply Qcmult_0_l).
    by rewrite H0, !Qcdiv_0_r.
  - field. auto.
Qed.

(** [X10_raw_and_normalised_indices] at the image of the worked example. *)
Lemma X10_witness :
  App.add_fai_mci sample_image
  = Ok (ee.addBands sample_image
          (raw_index_bands (λ _, Spec.qz 2000) (λ _, Spec.qz 2500) (λ _, Spec.qz 3200)
                           (λ _, Spec.qz 4000) (λ _, Spec.qz 3000))).
Proof.
  exact (proj1 (X10_raw_and_normalised_indices sample_image _ _ _ _ _ (0, 0)
                  eq_refl eq_refl eq_refl eq_refl eq_refl)).
Defined.

(** ** More on the summary *)

Section Summary.

Variables (service : ee.Service) (mean_img : ee.Composite) (aoi : ee.Geometry).
Variable thresholds : gmap string Qc.

Let agg (k : string) : option Qc := means service mean_img aoi k.

(** The loop prints mean lines only.  When it fails, it fails at the first
    index that lacks a mean or a threshold: with the exception of the
    service when the request failed, with [TypeError] when the service
    answered [None], with [KeyError] when the threshold is missing. *)
Lemma metrics_loop_calls keys : ∀ alerts,
  Forall (λ c, is_markdown c = true)
    (fst (App2.metrics_loop service keys mean_img aoi thresholds alerts))
  ∧ ∀ e, snd (App2.metrics_loop service keys mean_img aoi thresholds alerts) = Raise e →
         ∃ pre k post,
           keys = pre ++ k :: post
           ∧ (∀ k', k' ∈ pre → is_Some (agg k') ∧ is_Some (thresholds !! k'))
           ∧ (service mean_img k aoi = Raise e
              ∨ (service mean_img k aoi = Ok None ∧ e = TypeError)
              ∨ (is_Some (agg k) ∧ thresholds !! k = None ∧ e = KeyError k)).
Proof.
  induction keys as [|k keys IH]; intros alerts.
  - split; [constructor|discriminate].
  - destruct (agg k) as [v|] eqn:Hv.
    + destruct (thresholds !! k) as [t|] eqn:Ht.
      * rewrite (metrics_loop_step _ _ _ _ _ _ _ _ _ Hv Ht). cbv zeta.
        destruct (IH (if bool_decide (t < v)%Qc then alerts ++ [k] else alerts))
          as [Hc He].
        split; [by constructor|]. simpl. intros e H.
        destruct (He e H) as (pre & k' & post & -> & Hpre & Hcase).
        exists (k :: pre), k', post. split; [reflexivity|]. split; [|exact Hcase].
        intros k'' Hin. apply elem_of_cons in Hin as [->|Hin]; [|by apply Hpre].
        rewrite Hv, Ht. by split; eexists.
      * rewrite (metrics_loop_missing _ _ _ _ _ _ _ _ Hv Ht).
        split; [by repeat constructor|]. simpl. intros e [= <-].
        exists [], k, keys. split; [reflexivity|].
        split; [intros k' Hin; by apply elem_of_nil in Hin|].
        right. right. rewrite Hv. by split; [eexists|].
    + simpl. unfold App2.compute_mean_value. unfold agg, means in Hv.
      destruct (service mean_img k aoi) as [[v|]|e0] eqn:Hs; [discriminate| |].
      * split; [constructor|]. simpl. intros e [= <-].
        exists [], k, keys. split; [reflexivity|].
        split; [intros k' Hin; by apply elem_of_nil in Hin|].
        right. by left.
      * split; [constructor|]. simpl. intros e [= <-].
        exists [], k, keys. split; [reflexivity|].
        split; [intros k' Hin; by apply elem_of_nil in Hin|].
        by left.
Qed.

(** The loop returns only if every index has a mean and a threshold. *)
Lemma metrics_loop_returns keys : ∀ alerts out,
  snd (App2.metrics_loop service keys mean_img aoi thresholds alerts) = Ok out →
  ∀ k, k ∈ keys → is_Some (agg k) ∧ is_Some (thresholds !! k).
Proof.
  induction keys as [|k keys IH]; intros alerts out Hout k' Hin; [inversion Hin|].
  destruct (agg k) as [v|] eqn:Hv.
  - destruct (thresholds !! k) as [t|] eqn:Ht.
    + rewrite (metrics_loop_step _ _ _ _ _ _ _ _ _ Hv Ht) in Hout. simpl in Hout.
      apply elem_of_cons in Hin as [->|Hin].
      * rewrite Hv, Ht. by split; eexists.
      * by apply (IH _ _ Hout).
    + by rewrite (metrics_loop_missing _ _ _ _ _ _ _ _ Hv Ht) in Hout.
  - simpl in Hout. unfold App2.compute_mean_value in Hout. unfold agg, means in Hv.
    by destruct (service mean_img k aoi) as [[v|]|e0].
Qed.

End Summary.

(** X11.  [render_sidebar_metrics] returns exactly when every selected index
    has a mean from the service and a threshold in the table.  When it
    returns, its last call is the one summary box, the safe line or the
    alert.  When it raises, it has shown no summary box at all, only the
    heading and mean lines, and the exception comes from the first selected
    index that lacks a mean or a threshold: the exception of the service
    when the request for the mean failed, [TypeError] when the service
    answered [None], [KeyError] when the threshold is missing.  The same
    holds in [app3.py]. *)
Theorem X11_summary_box_only_on_return
    (service : ee.Service) (mean_img : ee.Composite) (aoi : ee.Geometry)
    (thresholds : gmap string Qc) (selected : list string) :
  let run2 := App2.render_sidebar_metrics service selected mean_img aoi thresholds in
  let run3 := App3.render_sidebar_metrics service selected mean_img aoi thresholds in
  (snd run2 = Ok tt ↔
     ∀ k, k ∈ selected → is_Some (means service mean_img aoi k) ∧ is_Some (thresholds !! k))
  ∧ snd run3 = snd run2
  ∧ (snd run2 = Ok tt →
     (∃ lines box, fst run2 = lines ++ [box]
        ∧ Forall (λ c, is_markdown c = true) lines ∧ is_markdown box = false)
     ∧ (∃ lines box, fst run3 = lines ++ [box]
          ∧ Forall (λ c, is_markdown c = true) lines ∧ is_markdown box = false))
  ∧ (∀ e, snd run2 = Raise e →
       Forall (λ c, is_markdown c = true) (fst run2)
       ∧ Forall (λ c, is_markdown c = true) (fst run3)
       ∧ ∃ pre k post,
           selected = pre ++ k :: post
           ∧ (∀ k', k' ∈ pre →
                is_Some (means service mean_img aoi k') ∧ is_Some (thresholds !! k'))
           ∧ (service mean_img k aoi = Raise e
              ∨ (service mean_img k aoi = Ok None ∧ e = TypeError)
              ∨ (is_Some (means service mean_img aoi k)
                 ∧ thresholds !! k = None ∧ e = KeyError k))).
Proof.
  intros run2 run3.
  destruct (metrics_loop_calls service mean_img aoi thresholds selected [])
    as [Hcalls Herr].
  assert (Hshape : ∀ out r,
            App2.metrics_loop service selected mean_img aoi thresholds [] = (out, r) →
            run2 = match r with
                   | Ok alerts =>
                       (markdown [Lit "## Water Quality Summary"] :: out
                          ++ [match alerts with
                              | [] => App2.safe_box
                              | _ :: _ => App2.alert_box alerts
                              end], Ok tt)
                   | Raise e => (markdown [Lit "## Water Quality Summary"] :: out, Raise e)
                   end
            ∧ run3 = match r with
                     | Ok alerts =>
                         (markdown [Lit "## Water Quality Summary"] :: out
                            ++ [match alerts with
                                | [] => App3.safe_box
                                | _ :: _ => App3.alert_box alerts
                                end], Ok tt)
                     | Raise e =>
                         (markdown [Lit "## Water Quality Summary"] :: out, Raise e)
                     end).
  { intros out r Hrun. unfold run2, run3, App2.render_sidebar_metrics,
      App3.render_sidebar_metrics.
    change App3.metrics_loop with App2.metrics_loop. rewrite Hrun.
    destruct r as [[|a alerts]|e]; by split. }
  destruct (App2.metrics_loop service selected mean_img aoi thresholds [])
    as [out r] eqn:Hrun.
  destruct (Hshape out r eq_refl) as [-> ->]. clear Hshape.
  simpl in Hcalls, Herr.
  split.
  { split.
    - intros Hok. destruct r as [alerts|e]; [|discriminate].
      apply (metrics_loop_returns service mean_img aoi thresholds selected [] alerts).
      by rewrite Hrun.
    - intros Hall.
      pose proof (metrics_loop_ok service mean_img aoi thresholds selected [] Hall) as H.
      rewrite Hrun in H. by injection H as _ ->. }
  split; [by destruct r|].
  split.
  { intros Hok. destruct r as [alerts|e]; [|discriminate].
    split; eexists (_ :: out), _; (split; [reflexivity|]);
      (split; [by constructor|]); by destruct alerts. }
  intros e He. destruct r as [alerts|e']; [discriminate|].
  simpl in He. injection He as ->.
  split; [by constructor|]. split; [by constructor|]. by apply Herr.
Qed.

(** [X11_summary_box_only_on_return] with the means of the example and a
    threshold table that lacks Turbidity: the function raises and has shown
    only plain lines. *)
Lemma X11_witness :
  Forall (λ c, is_markdown c = true)
    (fst (App2.render_sidebar_metrics example_service ["FAI"; "MCI"; "Turbidity"]
            (App2.compute_mean_image App2.add_fai_mci_turbidity
               (App2.load_sentinel_collection App2.get_default_geometry 2020 2024))
            App2.get_default_geometry
            (<["FAI" := Q2Qc 0.05]> (<["MCI" := Q2Qc 0.02]> ∅)))).
Proof.
  refine (proj1 (proj2 (proj2 (proj2
            (X11_summary_box_only_on_return example_service _ _ _
               ["FAI"; "MCI"; "Turbidity"]))) (KeyError "Turbidity") _)).
  vm_compute. reflexivity.
Defined.

(** A failure of the service leaves [render_sidebar_metrics] as it is: after
    the heading, and before any mean line or box. *)
Example service_fault_passes_through (img : ee.Composite) (aoi : ee.Geometry) :
  App2.render_sidebar_metrics service_down ["FAI"; "MCI"] img aoi App2.thresholds
  = ([markdown [Lit "## Water Quality Summary"]],
     Raise (EEException "Computation timed out."))
  ∧ App3.render_sidebar_metrics service_down ["FAI"; "MCI"] img aoi App3.thresh
    = ([markdown [Lit "## Water Quality Summary"]],
       Raise (EEException "Computation timed out.")).
Proof. split; reflexivity. Qed.

Lemma ticked_spec (checkbox : string → bool) (k : string) :
  k ∈ ticked checkbox ↔ k ∈ ["FAI"; "MCI"; "Turbidity"] ∧ checkbox k = true.
Proof.
  unfold ticked. split.
  - intros H. apply list_elem_of_In, filter_In in H as [Hin Hc].
    split; [by apply list_elem_of_In|exact Hc].
  - intros [Hin Hc]. apply list_elem_of_In, filter_In.
    split; [by apply list_elem_of_In|exact Hc].
Qed.

Lemma page_thresholds_complete (k : string) :
  k ∈ ["FAI"; "MCI"; "Turbidity"] →
  is_Some (App2.thresholds !! k) ∧ is_Some (App3.thresh !! k).
Proof.
  intros H. repeat (apply elem_of_cons in H as [->|H]; [split; by eexists|]).
  inversion H.
Qed.

Lemma main2_shape (ui : App2.Inputs) (service : ee.Service) :
  ∃ calls0 aoi,
    App2.get_custom_geometry (App2.choice ui) (App2.geojson_str ui) = (calls0, Ok aoi)
    ∧ snd (App2.main ui service)
      = snd (App2.render_sidebar_metrics service (ticked (App2.checkbox ui))
               (App2.compute_mean_image App2.add_fai_mci_turbidity
                  (App2.load_sentinel_collection aoi (App2.start_year ui)
                     (App2.end_year ui)))
               aoi App2.thresholds).
Proof.
  destruct (proj1 custom_mode_never_raises (App2.choice ui) (App2.geojson_str ui))
    as (calls0 & aoi & Hg).
  exists calls0, aoi. split; [exact Hg|]. unfold App2.main. rewrite Hg.
  unfold ticked. cbv beta iota zeta delta [mbind M_bind Py.bind Py.emit].
  match goal with
  | |- context [App2.render_sidebar_metrics ?a ?b ?c ?d ?e] =>
      destruct (App2.render_sidebar_metrics a b c d e) as [o r]
  end.
  reflexivity.
Qed.

Lemma render2_outcome (service : ee.Service) (mean_img : ee.Composite)
    (aoi : ee.Geometry) (thresholds : gmap string Qc) (selected : list string) :
  snd (App2.render_sidebar_metrics service selected mean_img aoi thresholds)
  = match snd (App2.metrics_loop service selected mean_img aoi thresholds []) with
    | Ok _ => Ok tt
    | Raise e => Raise e
    end.
Proof.
  unfold App2.render_sidebar_metrics.
  destruct (App2.metrics_loop _ _ _ _ _ _) as [out [[|a alerts]|e]]; reflexivity.
Qed.

(** X12.  The sidebar part of [main] in [app2.py], from
    [get_custom_geometry] to [render_sidebar_metrics], never fails in
    resolving the area of interest, and never for want of a threshold: the
    table of [main] has an entry for each of the three layers that can be
    ticked.  It completes exactly when the service has a mean for every
    ticked layer; otherwise it stops at a ticked layer that has none, with
    the exception of the service when the request failed and with
    [TypeError] when the service answered [None]. *)
Theorem X12_sidebar_part_completes_iff_means (ui : App2.Inputs) (service : ee.Service) :
  ∃ calls0 aoi,
    App2.get_custom_geometry (App2.choice ui) (App2.geojson_str ui) = (calls0, Ok aoi)
    ∧ let mean_img :=
        App2.compute_mean_image App2.add_fai_mci_turbidity
          (App2.load_sentinel_collection aoi (App2.start_year ui) (App2.end_year ui)) in
      (snd (App2.main ui service) = Ok tt
       ↔ ∀ k, k ∈ ["FAI"; "MCI"; "Turbidity"] → App2.checkbox ui k = true →
              is_Some (means service mean_img aoi k))
      ∧ (∀ e, snd (App2.main ui service) = Raise e →
           ∃ k, k ∈ ["FAI"; "MCI"; "Turbidity"] ∧ App2.checkbox ui k = true
                ∧ (service mean_img k aoi = Raise e
                   ∨ (service mean_img k aoi = Ok None ∧ e = TypeError))).
Proof.
  destruct (main2_shape ui service) as (calls0 & aoi & Hg & Hmain).
  exists calls0, aoi. split; [exact Hg|]. intros mean_img.
  rewrite Hmain, render2_outcome. fold mean_img.
  pose proof (metrics_loop_calls service mean_img aoi App2.thresholds
                (ticked (App2.checkbox ui)) []) as [_ Herr].
  pose proof (metrics_loop_returns service mean_img aoi App2.thresholds
                (ticked (App2.checkbox ui)) []) as Hret.
  pose proof (metrics_loop_ok service mean_img aoi App2.thresholds
                (ticked (App2.checkbox ui)) []) as Hok.
  destruct (App2.metrics_loop service (ticked (App2.checkbox ui)) mean_img aoi
              App2.thresholds []) as [out [alerts|e]]; simpl in *.
  - split; [|discriminate]. split; [|done]. intros _ k Hk Hc.
    by apply (Hret alerts eq_refl k), ticked_spec.
  - split.
    + split; [discriminate|]. intros Hall.
      assert (Hall' : ∀ k, k ∈ ticked (App2.checkbox ui) →
                is_Some (means service mean_img aoi k)
                ∧ is_Some (App2.thresholds !! k)).
      { intros k Hk. apply ticked_spec in Hk as [Hk Hc].
        split; [by apply Hall|by apply page_thresholds_complete]. }
      by specialize (Hok Hall').
    + intros e' [= <-].
      destruct (Herr e eq_refl) as (pre & k & post & Hsplit & _ & Hcase).
      assert (Hin : k ∈ ticked (App2.checkbox ui)).
      { rewrite Hsplit. apply elem_of_app. right. apply list_elem_of_here. }
      apply ticked_spec in Hin as [Hin Hc].
      exists k. split; [exact Hin|]. split; [exact Hc|].
      destruct Hcase as [H|[H|(_ & Hnone & _)]]; [by left|by right|].
      destruct (proj1 (page_thresholds_complete k Hin)) as [t Ht]. congruence.
Qed.

(** [X12_sidebar_part_completes_iff_means] with all layers ticked and the means
    of the example: [main] returns. *)
Lemma X12_witness :
  snd (App2.main
         {| App2.start_year := 2020; App2.end_year := 2024;
            App2.choice := "Default Lake"; App2.geojson_str := "";
            App2.checkbox := λ _, true |}
         example_service) = Ok tt.
Proof.
  destruct (X12_sidebar_part_completes_iff_means
              {| App2.start_year := 2020; App2.end_year := 2024;
                 App2.choice := "Default Lake"; App2.geojson_str := "";
                 App2.checkbox := λ _, true |}
              example_service) as (calls0 & aoi & _ & Hiff & _).
  apply Hiff. intros k Hk _.
  repeat (apply elem_of_cons in Hk as [->|Hk]; [by eexists|]). inversion Hk.
Defined.

(** ** The map and the legends *)











Lemma legend_lines_outcome (th : gmap string Qc)
    (vis : list (string * Page.VisParams)) : ∀ done,
  match App3_page.legend_lines vis th done with
  | (out, Ok _) =>
      (∀ k, k ∈ vis.*1 → is_Some (th !! k))
      ∧ length out = (length done + length vis)%nat
  | (out, Raise e) =>
      ∃ pre k p post,
        vis = pre ++ (k, p) :: post
        ∧ e = KeyError k
        ∧ th !! k = None
        ∧ (∀ k', k' ∈ pre.*1 → is_Some (th !! k'))
        ∧ length out = (length done + length pre)%nat
  end.
Proof.
  induction vis as [|[k p] vis IH]; intros done; simpl.
  - split; [|lia]. intros k Hk. by apply elem_of_nil in Hk.
  - destruct (th !! k) as [t|] eqn:Ek.
    + specialize (IH (done ++ [Page.p_markdown
                         [ Page.Text "**"; Page.Text k; Page.Text "**: Range [";
                           Page.Num (Page.vmin p); Page.Text ",";
                           Page.Num (Page.vmax p); Page.Text "], Colors: ";
                           Page.Text (String.concat "→" (Page.palette p));
                           Page.Text ", Alert > "; Page.Num t ] ])).
      destruct (App3_page.legend_lines vis th _) as [out [[]|e]].
      * destruct IH as [Hall Hlen]. split.
        -- intros k' Hk'. apply elem_of_cons in Hk' as [->|Hk']; [by eexists|].
           by apply Hall.
        -- rewrite Hlen, length_app. simpl. lia.
      * destruct IH as (pre & k' & p' & post & -> & -> & Hn & Hpre & Hlen).
        exists ((k, p) :: pre), k', p', post. repeat split; try done.
        -- intros k'' Hk''. simpl in Hk''.
           apply elem_of_cons in Hk'' as [->|Hk'']; [by eexists|]. by apply Hpre.
        -- rewrite Hlen, length_app. simpl. lia.
    + exists [], k, p, vis. repeat split; try done; simpl; try lia.
      intros k' Hk'. by apply elem_of_nil in Hk'.
Qed.

(** X16.  The legends of [app2.py] have a line for every entry of the
    visualisation table whether or not it has a threshold.  Those of
    [app3.py] return exactly when every entry has a threshold, with as many
    lines; otherwise they raise [KeyError] for the first entry that has none,
    after the lines of the entries before it. *)
Theorem X16_legends_and_missing_thresholds
    (vis : list (string * Page.VisParams)) (th : gmap string Qc) :
  length (App2_page.describe_legends vis th) = S (length vis)
  ∧ (snd (App3_page.describe_legends vis th) = Ok tt
     ↔ ∀ k, k ∈ vis.*1 → is_Some (th !! k))
  ∧ (snd (App3_page.describe_legends vis th) = Ok tt →
     length (fst (App3_page.describe_legends vis th)) = S (length vis))
  ∧ (∀ e, snd (App3_page.describe_legends vis th) = Raise e →
       ∃ pre k p post,
         vis = pre ++ (k, p) :: post
         ∧ e = KeyError k
         ∧ th !! k = None
         ∧ (∀ k', k' ∈ pre.*1 → is_Some (th !! k'))
         ∧ length (fst (App3_page.describe_legends vis th)) = S (length pre)).
Proof.
  split.
  { unfold App2_page.describe_legends. simpl. by rewrite length_map. }
  unfold App3_page.describe_legends.
  pose proof (legend_lines_outcome th vis
                [Page.p_markdown [Page.Text "### Legends & Thresholds"]]) as H.
  destruct (App3_page.legend_lines vis th _) as [out [[]|e]]; simpl in *.
  - destruct H as [Hall Hlen]. repeat split; try done.
  - destruct H as (pre & k & p & post & -> & -> & Hn & Hpre & Hlen).
    split; [|split; [done|]].
    + split; [done|]. intros Hall. exfalso.
      destruct (Hall k) as [t Ht]; [|congruence].
      rewrite fmap_app. apply elem_of_app. right. simpl. apply list_elem_of_here.
    + intros e' [= <-]. by exists pre, k, p, post.
Qed.

(** ** The report of [app.py] *)

(** X17.  The closing report of [app.py] returns exactly when the service
    gave both means.  When one is missing it raises [TypeError] while writing
    the mean lines: after the subheader when the FAI mean is missing, after
    the FAI line when only the MCI mean is, and in either case before any
    alert or success has been written. *)
Theorem X17_report_needs_both_means (fai_val mci_val : option Qc) :
  (snd (App_page.report fai_val mci_val) = Ok tt
   ↔ is_Some fai_val ∧ is_Some mci_val)
  ∧ (fai_val = None →
     App_page.report fai_val mci_val
     = ([Page.p_subheader [Page.Text "Algal Bloom Detection"]], Raise TypeError))
  ∧ (∀ x, fai_val = Some x → mci_val = None →
     App_page.report fai_val mci_val
     = ([ Page.p_subheader [Page.Text "Algal Bloom Detection"];
          Page.p_markdown [Page.Text "**FAI Mean:** "; Page.Fixed4 x] ],
        Raise TypeError)).
Proof.
  split; [|split].
  - destruct fai_val as [x|], mci_val as [y|]; simpl.
    + split; [by eauto|]. intros _.
      unfold App_page.report. simpl.
      by destruct (bool_decide _ || bool_decide _).
    + split; [discriminate|]. by intros [_ [? ?]].
    + split; [discriminate|]. by intros [[? ?] _].
    + split; [discriminate|]. by intros [[? ?] _].
  - by intros ->.
  - by intros x -> ->.
Qed.


(** ** The query window *)

Lemma date_leb_year (a b : ee.Date) :
  ee.date_leb a b = true → ee.year a <= ee.year b.
Proof.
  unfold ee.date_leb, ee.date_ltb. intros H. apply negb_true_iff in H.
  apply orb_false_iff in H as [H _]. lia.
Qed.

Lemma date_ltb_year (a b : ee.Date) :
  ee.date_ltb a b = true → ee.year a <= ee.year b.
Proof.
  unfold ee.date_ltb. intros H.
  apply orb_true_iff in H as [H|H]; [lia|].
  apply andb_true_iff in H as [H _]. lia.
Qed.

Lemma date_leb_from_earlier_year (y y' m d : Z) (t : ee.Date) :
  y' <= y →
  ee.date_leb (ee.Date_fromYMD y m d) t = true →
  ee.date_leb (ee.Date_fromYMD y' m d) t = true.
Proof.
  unfold ee.date_leb, ee.date_ltb. simpl. intros Hy H.
  apply negb_true_iff in H. apply negb_true_iff.
  destruct (Z.ltb_spec (ee.year t) y); [discriminate|].
  destruct (Z.ltb_spec (ee.year t) y'); [lia|]. simpl in *.
  destruct (Z.eqb_spec (ee.year t) y'); [|reflexivity].
  destruct (Z.eqb_spec (ee.year t) y); [exact H|lia].
Qed.

Lemma date_ltb_to_later_year (y y' m d : Z) (t : ee.Date) :
  y <= y' →
  ee.date_ltb t (ee.Date_fromYMD y m d) = true →
  ee.date_ltb t (ee.Date_fromYMD y' m d) = true.
Proof.
  unfold ee.date_ltb. simpl. intros Hy H.
  destruct (Z.ltb_spec (ee.year t) y'); [reflexivity|]. simpl.
  destruct (Z.ltb_spec (ee.year t) y); [lia|]. simpl in H.
  destruct (Z.eqb_spec (ee.year t) y); [|discriminate].
  destruct (Z.eqb_spec (ee.year t) y'); [exact H|lia].
Qed.

(** X19.  An image admitted by [load_sentinel_collection] was taken in a
    year from the start year to the end year, so a window whose end year is
    before its start year admits nothing; and an image admitted for one pair
    of years is admitted for every pair that starts no later and ends no
    earlier. *)
Theorem X19_wider_window_admits_more
    (aoi : ee.Geometry) (sy ey sy' ey' : Z) (im : ee.ImageInfo) :
  sy' <= sy → ey <= ey' →
  ee.admits (App2.load_sentinel_collection aoi sy ey) im = true →
  sy <= ee.year (ee.time_start im) <= ey
  ∧ ee.admits (App2.load_sentinel_collection aoi sy' ey') im = true
  ∧ ee.admits (App3.load_sentinel_collection aoi sy' ey') im = true.
Proof.
  intros Hs He H.
  assert (H3 : App3.load_sentinel_collection aoi sy' ey'
               = App2.load_sentinel_collection aoi sy' ey') by reflexivity.
  rewrite H3. clear H3.
  unfold ee.admits in *. simpl in *.
  apply andb_true_iff in H as [Hb H]. apply andb_true_iff in H as [Hd Hc].
  apply andb_true_iff in Hd as [Hlo Hhi].
  split.
  - split; [by apply date_leb_year in Hlo|by apply date_ltb_year in Hhi].
  - rewrite Hb, Hc.
    rewrite (date_leb_from_earlier_year sy sy' 1 1 _ Hs Hlo).
    by rewrite (date_ltb_to_later_year ey ey' 12 31 _ He Hhi).
Qed.

(** [X19_wider_window_admits_more] at an image of June 2021, for the windows
    2020 to 2022 and 2016 to 2024. *)
Lemma X19_witness :
  2020 <= ee.year (ee.time_start (image_at 2021 6 15 0)) <= 2022
  ∧ ee.admits (App2.load_sentinel_collection App2.get_default_geometry 2016 2024)
      (image_at 2021 6 15 0) = true
  ∧ ee.admits (App3.load_sentinel_collection App2.get_default_geometry 2016 2024)
      (image_at 2021 6 15 0) = true.
Proof.
  apply (X19_wider_window_admits_more App2.get_default_geometry 2020 2022 2016 2024
           (image_at 2021 6 15 0)); [lia|lia|vm_compute; reflexivity].
Defined.

Lemma year_texts (y : Z) :
  2016 <= y <= 2024 →
  ee.date_of (ee.AsText (pretty y +:+ "-01-01")) = Some (ee.Date_fromYMD y 1 1)
  ∧ ee.date_of (ee.AsText (pretty y +:+ "-12-31")) = Some (ee.Date_fromYMD y 12 31).
Proof.
  intros Hy.
  assert (H : y = 2016 ∨ y = 2017 ∨ y = 2018 ∨ y = 2019 ∨ y = 2020 ∨ y = 2021
              ∨ y = 2022 ∨ y = 2023 ∨ y = 2024) by lia.
  repeat destruct H as [->|H]; try subst y; split; vm_compute; reflexivity.
Qed.

(** X20.  For the years the sliders of [app.py] can give, the texts it hands
    to [filterDate] stand for the dates the later versions build with
    [fromYMD]: the collection of [app.py] admits exactly the images that
    [load_sentinel_collection] admits over the same lake and years. *)
Theorem X20_text_bounds_agree_with_dates (start_year end_year : Z) (im : ee.ImageInfo) :
  2016 <= start_year <= 2024 → start_year <= end_year <= 2024 →
  ee.admits (App.collection start_year end_year) im
  = ee.admits (App2.load_sentinel_collection App.lake start_year end_year) im.
Proof.
  intros Hs He.
  destruct (year_texts start_year Hs) as [Hlo _].
  destruct (year_texts end_year ltac:(lia)) as [_ Hhi].
  unfold ee.admits, App.collection, App2.load_sentinel_collection.
  cbn [ee.filters forallb ee.passes].
  by rewrite Hlo, Hhi.
Qed.

(** [X20_text_bounds_agree_with_dates] at the sliders' defaults. *)
Lemma X20_witness :
  ee.admits (App.collection 2020 2024) image_7pct
  = ee.admits (App2.load_sentinel_collection App.lake 2020 2024) image_7pct.
Proof.
  apply (X20_text_bounds_agree_with_dates 2020 2024 image_7pct); lia.
Defined.

(** ** [main] of [app3.py] *)

Lemma render3_outcome (service : ee.Service) (mean_img : ee.Composite)
    (aoi : ee.Geometry) (thresholds : gmap string Qc) (selected : list string) :
  snd (App3.render_sidebar_metrics service selected mean_img aoi thresholds)
  = match snd (App2.metrics_loop service selected mean_img aoi thresholds []) with
    | Ok _ => Ok tt
    | Raise e => Raise e
    end.
Proof.
  unfold App3.render_sidebar_metrics.
  change App3.metrics_loop with App2.metrics_loop.
  destruct (App2.metrics_loop _ _ _ _ _ _) as [out [[|a alerts]|e]]; reflexivity.
Qed.

Lemma main3_shape (ui : App3.Inputs) (net : requests.Transport)
    (service : ee.Service) (calls : list st_call) (aoi : ee.Geometry) :
  App3.get_custom_geometry net (App3.option ui) (App3.geojson_str ui)
    (App3.pick ui) (App3.appid ui) = (calls, Ok aoi) →
  snd (App3.main ui net service)
  = snd (App3.render_sidebar_metrics service (ticked (App3.checkbox ui))
           (App3.compute_mean_image App3.add_fai_mci_turbidity
              (App3.load_sentinel_collection aoi (App3.sy ui) (App3.ey ui)))
           aoi App3.thresh).
Proof.
  intros Hg. unfold App3.main. rewrite Hg.
  unfold ticked. cbv beta iota zeta delta [mbind M_bind Py.bind Py.emit].
  match goal with
  | |- context [App3.render_sidebar_metrics ?a ?b ?c ?d ?e] =>
      destruct (App3.render_sidebar_metrics a b c d e) as [o r]
  end.
  reflexivity.
Qed.

(** X21.  The sidebar part of [main] in [app3.py], from
    [get_custom_geometry] to [render_sidebar_metrics], stops where resolving
    the area of interest raises: the exception is the one of
    [get_custom_geometry], and the sidebar holds what that function had
    written and nothing after it.  When the area is resolved, the part
    completes exactly when the service has a mean for every ticked layer;
    otherwise it stops at a ticked layer that has none, with the exception
    of the service when the request failed and with [TypeError] when the
    service answered [None]. *)
Theorem X21_main3_follows_area_then_means
    (ui : App3.Inputs) (net : requests.Transport) (service : ee.Service) :
  match App3.get_custom_geometry net (App3.option ui) (App3.geojson_str ui)
          (App3.pick ui) (App3.appid ui) with
  | (calls, Raise e) => App3.main ui net service = (calls, Raise e)
  | (calls, Ok aoi) =>
      let mean_img :=
        App3.compute_mean_image App3.add_fai_mci_turbidity
          (App3.load_sentinel_collection aoi (App3.sy ui) (App3.ey ui)) in
      (snd (App3.main ui net service) = Ok tt
       ↔ ∀ k, k ∈ ["FAI"; "MCI"; "Turbidity"] → App3.checkbox ui k = true →
              is_Some (means service mean_img aoi k))
      ∧ (∀ e, snd (App3.main ui net service) = Raise e →
           ∃ k, k ∈ ["FAI"; "MCI"; "Turbidity"] ∧ App3.checkbox ui k = true
                ∧ (service mean_img k aoi = Raise e
                   ∨ (service mean_img k aoi = Ok None ∧ e = TypeError)))
  end.
Proof.
  destruct (App3.get_custom_geometry net _ _ _ _) as [calls [aoi|e]] eqn:Hg.
  2: { unfold App3.main. by rewrite Hg. }
  intros mean_img.
  rewrite (main3_shape ui net service calls aoi Hg), render3_outcome.
  fold mean_img.
  pose proof (metrics_loop_calls service mean_img aoi App3.thresh
                (ticked (App3.checkbox ui)) []) as [_ Herr].
  pose proof (metrics_loop_returns service mean_img aoi App3.thresh
                (ticked (App3.checkbox ui)) []) as Hret.
  pose proof (metrics_loop_ok service mean_img aoi App3.thresh
                (ticked (App3.checkbox ui)) []) as Hok.
  destruct (App2.metrics_loop service (ticked (App3.checkbox ui)) mean_img aoi
              App3.thresh []) as [out [alerts|e]]; simpl in *.
  - split; [|discriminate]. split; [|done]. intros _ k Hk Hc.
    by apply (Hret alerts eq_refl k), ticked_spec.
  - split.
    + split; [discriminate|]. intros Hall.
      assert (Hall' : ∀ k, k ∈ ticked (App3.checkbox ui) →
                is_Some (means service mean_img aoi k)
                ∧ is_Some (App3.thresh !! k)).
      { intros k Hk. apply ticked_spec in Hk as [Hk Hc].
        split; [by apply Hall|by apply page_thresholds_complete]. }
      by specialize (Hok Hall').
    + intros e' [= <-].
      destruct (Herr e eq_refl) as (pre & k & post & Hsplit & _ & Hcase).
      assert (Hin : k ∈ ticked (App3.checkbox ui)).
      { rewrite Hsplit. apply elem_of_app. right. apply list_elem_of_here. }
      apply ticked_spec in Hin as [Hin Hc].
      exists k. split; [exact Hin|]. split; [exact Hc|].
      destruct Hcase as [H|[H|(_ & Hnone & _)]]; [by left|by right|].
      destruct (proj2 (page_thresholds_complete k Hin)) as [t Ht]. congruence.
Qed.
